(** * ImmoFinder: the browser session manager of [src/scraper/browser.py]

    A shallow embedding of the class [BrowserManager] and the properties of
    its session life cycle, its retry loop and its two fetch operations.

    The Playwright engine is third-party code.  It is represented by a record
    of reply functions ([Engine]); every reply may depend on the whole history
    of what the manager did before the call, so an engine can fail on the first
    two navigations and succeed on the third, or refuse to close a page.
    Everything the manager does to the outside world (engine calls, sleeps,
    log records) is appended to a trace. *)

From Stdlib Require Import ZArith List String Ascii Bool Lia DecimalString.
Import ListNotations.
Local Open Scope string_scope.
Local Open Scope list_scope.
Local Open Scope Z_scope.

Set Implicit Arguments.

(** ** Python values *)

(** Engine objects (Playwright, Browser, BrowserContext, Page, ElementHandle)
    are opaque references.  None of their classes defines [__bool__] or
    [__len__], so a reference is truthy and only [None] is falsy. *)
Definition handle := nat.

(** The exceptions that occur.  Every constructor stands for a subclass of
    Python's [Exception], which is what the [except Exception] clauses of the
    source catch; the payload is [str(e)]. *)
Inductive exn : Type :=
| RuntimeError (msg : string)
| AttributeError (msg : string)
| PlaywrightError (msg : string)
| PlaywrightTimeoutError (msg : string).

Definition str_of_exn (e : exn) : string :=
  match e with
  | RuntimeError m | AttributeError m | PlaywrightError m
  | PlaywrightTimeoutError m => m
  end.

(** [str(n)] for a Python int. *)
Definition str_of_int (n : Z) : string := NilZero.string_of_int (Z.to_int n).

(** [len(s)] as an int. *)
Definition len (s : string) : Z := Z.of_nat (String.length s).

(** [needle in hay] for two strings. *)
Definition str_in (needle hay : string) : bool :=
  match String.index 0 needle hay with
  | Some _ => true
  | None => false
  end.

(** Truth value of a [str] that may also be [None]: [if html:]. *)
Definition truthy (html : option string) : bool :=
  match html with
  | Some (String _ _) => true
  | _ => false
  end.

(** ** Configuration *)

(** Modelled from the spec: the class [Config] of [src/scraper/config.py] is
    imported by the source but is not part of it; section 6 of the specification
    lists the fields the manager reads and their types. *)
Record BrowserConfig : Type := {
  headless : bool;
  user_agent : string;
  viewport_width : Z;
  viewport_height : Z;
  default_timeout : Z;
  navigation_timeout : Z
}.

Record SelectorsConfig : Type := {
  property_list : string;
  property_item : string
}.

Record ScrapingConfig : Type := {
  max_retries : Z;
  retry_delay : Z
}.

Record Config : Type := {
  browser : BrowserConfig;
  selectors : SelectorsConfig;
  scraping : ScrapingConfig
}.

(** ** The observable trace *)

Inductive level : Type := DEBUG | INFO | WARNING | ERROR.

(** The two arguments [asyncio.sleep] is called with: the literal [5], and
    [retry_delay / 1000] for a delay configured in milliseconds. *)
Inductive duration : Type :=
| Seconds (n : Z)
| MillisAsSeconds (ms : Z).

Inductive Event : Type :=
| EStart
| ELaunch (pw : handle) (headless : bool)
| ENewContext (b : handle) (user_agent : string) (width height : Z)
| ENewPage (c : handle)
| ESetDefaultTimeout (p : handle) (t : Z)
| ESetDefaultNavigationTimeout (p : handle) (t : Z)
| EPageClose (p : handle)
| EContextClose (c : handle)
| EBrowserClose (b : handle)
| EStop (pw : handle)
| EGoto (p : handle) (url : string) (timeout : option Z)
| EWaitForSelector (p : handle) (selector : string) (timeout : Z)
| EQuerySelectorAll (p : handle) (selector : string)
| EInnerHtml (el : handle)
| EContent (p : handle)
| ESleep (d : duration)
| ELog (lvl : level) (msg : string).

Definition history := list Event.

(** ** The engine *)

Inductive reply (A : Type) : Type :=
| Done (a : A)
| Fail (e : exn).
Arguments Fail {A} e.

(** One reply function per engine call of the source.  [pw_start] may hand
    back [None] (the source guards against a falsy engine), and so may
    [wait_for_selector] and [inner_html]. *)
Record Engine : Type := {
  pw_start : history -> reply (option handle);
  chromium_launch : history -> handle -> bool -> reply handle;
  new_context : history -> handle -> string -> Z -> Z -> reply handle;
  new_page : history -> handle -> reply handle;
  set_default_timeout : history -> handle -> Z -> reply unit;
  set_default_navigation_timeout : history -> handle -> Z -> reply unit;
  page_close : history -> handle -> reply unit;
  context_close : history -> handle -> reply unit;
  browser_close : history -> handle -> reply unit;
  pw_stop : history -> handle -> reply unit;
  goto : history -> handle -> string -> option Z -> reply unit;
  wait_for_selector : history -> handle -> string -> Z -> reply (option handle);
  query_selector_all : history -> handle -> string -> reply (list handle);
  inner_html : history -> handle -> reply (option string);
  content : history -> handle -> reply string
}.

(** ** The manager object and the monad of its methods *)

(** The four handle attributes of [BrowserManager.__init__]; [self.config]
    is never assigned after construction and is a parameter below. *)
Record BrowserManager : Type := {
  _playwright : option handle;
  _browser : option handle;
  _page : option handle;
  _context : option handle
}.

(** [BrowserManager.__init__] *)
Definition init : BrowserManager :=
  {| _playwright := None; _browser := None; _page := None; _context := None |}.

Record St : Type := {
  self : BrowserManager;
  trace : history
}.

(** How a method call ends.  [OutOfFuel] only marks a recursion cut short by
    the fuel of [get_properties_fuel]; [get_properties_total] shows that it
    never shows up in [get_properties]. *)
Inductive outcome (A : Type) : Type :=
| Returned (a : A)
| Raised (e : exn)
| OutOfFuel.
Arguments Raised {A} e.
Arguments OutOfFuel {A}.

Definition M (A : Type) : Type := St -> outcome A * St.

Definition ret {A} (a : A) : M A := fun s => (Returned a, s).

Definition bind {A B} (m : M A) (k : A -> M B) : M B :=
  fun s =>
    match m s with
    | (Returned a, s') => k a s'
    | (Raised e, s') => (Raised e, s')
    | (OutOfFuel, s') => (OutOfFuel, s')
    end.

Definition raise {A} (e : exn) : M A := fun s => (Raised e, s).

(** [try: body  except Exception as e: handler e] *)
Definition try_except {A} (body : M A) (handler : exn -> M A) : M A :=
  fun s =>
    match body s with
    | (Raised e, s') => handler e s'
    | r => r
    end.

Declare Scope py_scope.
Delimit Scope py_scope with py.
Notation "x <- m ;; k" := (bind m (fun x => k))
  (at level 61, m at next level, right associativity) : py_scope.
Notation "m ;; k" := (bind m (fun _ => k))
  (at level 61, right associativity) : py_scope.
Local Open Scope py_scope.

Definition get_self : M BrowserManager := fun s => (Returned (self s), s).

Definition put_self (bm : BrowserManager) : M unit :=
  fun s => (Returned tt, {| self := bm; trace := trace s |}).

Definition emit (ev : Event) : M unit :=
  fun s => (Returned tt, {| self := self s; trace := trace s ++ [ev] |}).

(** An engine call: the engine answers from the history so far, the call is
    recorded, and a failure becomes a raised exception. *)
Definition call {A} (ev : Event) (f : history -> reply A) : M A :=
  fun s =>
    let s' := {| self := self s; trace := trace s ++ [ev] |} in
    match f (trace s) with
    | Done a => (Returned a, s')
    | Fail e => (Raised e, s')
    end.

Definition log (lvl : level) (msg : string) : M unit := emit (ELog lvl msg).

(** [await asyncio.sleep(d)] *)
Definition sleep (d : duration) : M unit := emit (ESleep d).

(** Attribute assignments [self._x = v]. *)
Definition set_playwright (v : option handle) : M unit :=
  bm <- get_self ;;
  put_self {| _playwright := v; _browser := _browser bm;
              _page := _page bm; _context := _context bm |}.

Definition set_browser (v : option handle) : M unit :=
  bm <- get_self ;;
  put_self {| _playwright := _playwright bm; _browser := v;
              _page := _page bm; _context := _context bm |}.

Definition set_page (v : option handle) : M unit :=
  bm <- get_self ;;
  put_self {| _playwright := _playwright bm; _browser := _browser bm;
              _page := v; _context := _context bm |}.

Definition set_context (v : option handle) : M unit :=
  bm <- get_self ;;
  put_self {| _playwright := _playwright bm; _browser := _browser bm;
              _page := _page bm; _context := v |}.

(** Calling a method on an attribute that holds [None]. *)
Definition none_has_no_attribute (name : string) : exn :=
  AttributeError ("'NoneType' object has no attribute '" ++ name ++ "'")%string.

(** ** The methods of [BrowserManager] *)

Section Methods.

Variable eng : Engine.
Variable config : Config.

(** [self._page.<name>(...)]: the attribute is read at every use. *)
Definition on_page {A} (name : string) (k : handle -> M A) : M A :=
  bm <- get_self ;;
  match _page bm with
  | Some p => k p
  | None => raise (none_has_no_attribute name)
  end.

(** [_initialize_playwright] *)
Definition _initialize_playwright : M unit :=
  bm <- get_self ;;
  match _playwright bm with
  | Some _ => ret tt
  | None =>
      log DEBUG "Initializing Playwright" ;;
      pw <- call EStart (pw_start eng) ;;
      set_playwright pw
  end.

(** The [try] block of [close]. *)
Definition close_body : M unit :=
  bm <- get_self ;;
  match _page bm with
  | Some p => call (EPageClose p) (fun h => page_close eng h p) ;;
              set_page None
  | None => ret tt
  end ;;
  bm <- get_self ;;
  match _context bm with
  | Some c => call (EContextClose c) (fun h => context_close eng h c) ;;
              set_context None
  | None => ret tt
  end ;;
  bm <- get_self ;;
  match _browser bm with
  | Some b => call (EBrowserClose b) (fun h => browser_close eng h b) ;;
              set_browser None
  | None => ret tt
  end ;;
  bm <- get_self ;;
  match _playwright bm with
  | Some pw => call (EStop pw) (fun h => pw_stop eng h pw) ;;
               set_playwright None
  | None => ret tt
  end ;;
  log INFO "Browser resources cleaned up".

(** [close] *)
Definition close : M unit :=
  try_except close_body
    (fun e => log ERROR ("Error during cleanup: " ++ str_of_exn e)%string).

(** The [try] block of [connect]. *)
Definition connect_body : M unit :=
  _initialize_playwright ;;
  bm <- get_self ;;
  match _playwright bm with
  | None => raise (RuntimeError "Failed to initialize Playwright")
  | Some pw =>
      log INFO "Launching browser..." ;;
      b <- call (ELaunch pw (headless (browser config)))
             (fun h => chromium_launch eng h pw (headless (browser config))) ;;
      set_browser (Some b) ;;
      c <- call (ENewContext b (user_agent (browser config))
                   (viewport_width (browser config))
                   (viewport_height (browser config)))
             (fun h => new_context eng h b (user_agent (browser config))
                         (viewport_width (browser config))
                         (viewport_height (browser config))) ;;
      set_context (Some c) ;;
      p <- call (ENewPage c) (fun h => new_page eng h c) ;;
      set_page (Some p) ;;
      call (ESetDefaultTimeout p (default_timeout (browser config)))
        (fun h => set_default_timeout eng h p (default_timeout (browser config))) ;;
      call (ESetDefaultNavigationTimeout p (navigation_timeout (browser config)))
        (fun h => set_default_navigation_timeout eng h p
                    (navigation_timeout (browser config))) ;;
      log INFO "Browser launched successfully"
  end.

(** [connect]: on any failure the teardown runs and the failure is raised
    again. *)
Definition connect : M unit :=
  try_except connect_body
    (fun e =>
       log ERROR ("Failed to launch browser: " ++ str_of_exn e)%string ;;
       close ;;
       raise e).

(** The [for] loop of [get_properties]; [html_elements] is the list the
    loop appends to. *)
Fixpoint collect (property_elements : list handle) (html_elements : list string)
  : M (list string) :=
  match property_elements with
  | [] => ret html_elements
  | element :: rest =>
      html <- call (EInnerHtml element) (fun h => inner_html eng h element) ;;
      match html with
      | Some (String a w) => collect rest (html_elements ++ [String a w])
      | _ => collect rest html_elements
      end
  end.

(** The [try] block of [get_properties]: one attempt.  Navigation always
    waits for [networkidle] and passes no timeout of its own. *)
Definition attempt (url : string) : M (list string) :=
  log INFO ("Navigating to " ++ url)%string ;;
  on_page "goto" (fun p => call (EGoto p url None) (fun h => goto eng h p url None)) ;;
  sleep (Seconds 5) ;;
  property_list <-
    on_page "wait_for_selector" (fun p =>
      call (EWaitForSelector p (property_list (selectors config))
              (default_timeout (browser config)))
        (fun h => wait_for_selector eng h p (property_list (selectors config))
                    (default_timeout (browser config)))) ;;
  match property_list with
  | None =>
      log WARNING "Property list selector not found" ;;
      ret []
  | Some _ =>
      property_elements <-
        on_page "query_selector_all" (fun p =>
          call (EQuerySelectorAll p (property_item (selectors config)))
            (fun h => query_selector_all eng h p (property_item (selectors config)))) ;;
      html_elements <- collect property_elements [] ;;
      log INFO ("Found " ++ str_of_int (Z.of_nat (List.length html_elements))
                ++ " properties for URL: " ++ url)%string ;;
      ret html_elements
  end.

(** [get_properties], the recursion bounded by [fuel]. *)
Fixpoint get_properties_fuel (fuel : nat) (url : string) (retry_count : Z)
  : M (list string) :=
  bm <- get_self ;;
  match _page bm with
  | None => raise (RuntimeError "Browser not initialized. Call connect() first.")
  | Some _ =>
      try_except (attempt url)
        (fun e =>
           log ERROR ("Error fetching properties from " ++ url ++ ": "
                      ++ str_of_exn e)%string ;;
           if retry_count <? max_retries (scraping config) then
             log INFO ("Retrying (" ++ str_of_int (retry_count + 1) ++ "/"
                       ++ str_of_int (max_retries (scraping config)) ++ ")")%string ;;
             sleep (MillisAsSeconds (retry_delay (scraping config))) ;;
             match fuel with
             | S fuel' => get_properties_fuel fuel' url (retry_count + 1)
             | O => fun s => (OutOfFuel, s)
             end
           else raise e)
  end.

(** [get_properties]: a call at [retry_count] nests at most
    [max_retries - retry_count] further calls. *)
Definition get_properties (url : string) (retry_count : Z) : M (list string) :=
  get_properties_fuel (Z.to_nat (max_retries (scraping config) - retry_count))
    url retry_count.

(** [get_page_content] *)
Definition get_page_content (url : string) : M (option string) :=
  try_except
    (on_page "goto" (fun p =>
       call (EGoto p url (Some (navigation_timeout (browser config))))
         (fun h => goto eng h p url (Some (navigation_timeout (browser config))))) ;;
     sleep (Seconds 5) ;;
     content <- on_page "content" (fun p => call (EContent p) (fun h => content eng h p)) ;;
     log DEBUG ("Fetched content length: " ++ str_of_int (len content))%string ;;
     (if len content <? 1000 then
        log WARNING "Content seems too short, might be incomplete"
      else if negb (str_in "prices-summary" content) then
        log WARNING "Expected content markers not found in page"
      else ret tt) ;;
     ret (Some content))
    (fun e =>
       log ERROR ("Failed to get page content: " ++ str_of_exn e)%string ;;
       ret None).

(** [__aenter__] and [__aexit__] *)
Definition __aenter__ : M BrowserManager := connect ;; get_self.

Definition __aexit__ : M unit := close.

End Methods.

(** ** Counting what a call did *)

Definition is_goto (ev : Event) : bool :=
  match ev with EGoto _ _ _ => true | _ => false end.

(** A retry delay is a sleep of [retry_delay / 1000]; the settle delay after
    a navigation is the literal [5]. *)
Definition is_retry_delay (ev : Event) : bool :=
  match ev with ESleep (MillisAsSeconds _) => true | _ => false end.

Definition is_release (ev : Event) : bool :=
  match ev with
  | EPageClose _ | EContextClose _ | EBrowserClose _ | EStop _ => true
  | _ => false
  end.

Definition count (f : Event -> bool) (h : history) : nat :=
  List.length (filter f h).

(** ** Handle states *)

Definition is_some {A} (o : option A) : bool :=
  match o with Some _ => true | None => false end.

(** [Ready]: the four handles are set. *)
Definition ready (bm : BrowserManager) : bool :=
  is_some (_playwright bm) && is_some (_browser bm) &&
  is_some (_context bm) && is_some (_page bm).

(** Uninitialized or closed: the four handles are [None]. *)
Definition cleared (bm : BrowserManager) : bool :=
  negb (is_some (_playwright bm)) && negb (is_some (_browser bm)) &&
  negb (is_some (_context bm)) && negb (is_some (_page bm)).

(** No partial handle state. *)
Definition consistent (bm : BrowserManager) : bool := ready bm || cleared bm.

(** A manager as a caller first sees it. *)
Definition fresh : St := {| self := init; trace := [] |}.

(** ** Engines for concrete runs *)

Module Mock.

(** An engine on which every call succeeds.  The page shows three items, the
    second one with empty markup. *)
Definition item_html (el : handle) : option string :=
  match el with
  | 10%nat => Some "<h2>Flat</h2>"
  | 11%nat => Some ""
  | 12%nat => Some "<h2>House</h2>"
  | _ => None
  end.

Definition cooperative : Engine := {|
  pw_start := fun _ => Done (Some 1%nat);
  chromium_launch := fun _ _ _ => Done 2%nat;
  new_context := fun _ _ _ _ _ => Done 3%nat;
  new_page := fun _ _ => Done 4%nat;
  set_default_timeout := fun _ _ _ => Done tt;
  set_default_navigation_timeout := fun _ _ _ => Done tt;
  page_close := fun _ _ => Done tt;
  context_close := fun _ _ => Done tt;
  browser_close := fun _ _ => Done tt;
  pw_stop := fun _ _ => Done tt;
  goto := fun _ _ _ _ => Done tt;
  wait_for_selector := fun _ _ _ _ => Done (Some 5%nat);
  query_selector_all := fun _ _ _ => Done [10%nat; 11%nat; 12%nat];
  inner_html := fun _ el => Done (item_html el);
  content := fun _ _ => Done "<html><body>short page</body></html>"
|}.

Definition with_goto (f : history -> handle -> string -> option Z -> reply unit)
  (e : Engine) : Engine := {|
  pw_start := pw_start e; chromium_launch := chromium_launch e;
  new_context := new_context e; new_page := new_page e;
  set_default_timeout := set_default_timeout e;
  set_default_navigation_timeout := set_default_navigation_timeout e;
  page_close := page_close e; context_close := context_close e;
  browser_close := browser_close e; pw_stop := pw_stop e;
  goto := f;
  wait_for_selector := wait_for_selector e;
  query_selector_all := query_selector_all e;
  inner_html := inner_html e; content := content e
|}.

Definition with_wait_for_selector
  (f : history -> handle -> string -> Z -> reply (option handle))
  (e : Engine) : Engine := {|
  pw_start := pw_start e; chromium_launch := chromium_launch e;
  new_context := new_context e; new_page := new_page e;
  set_default_timeout := set_default_timeout e;
  set_default_navigation_timeout := set_default_navigation_timeout e;
  page_close := page_close e; context_close := context_close e;
  browser_close := browser_close e; pw_stop := pw_stop e;
  goto := goto e;
  wait_for_selector := f;
  query_selector_all := query_selector_all e;
  inner_html := inner_html e; content := content e
|}.

Definition with_page_close (f : history -> handle -> reply unit)
  (e : Engine) : Engine := {|
  pw_start := pw_start e; chromium_launch := chromium_launch e;
  new_context := new_context e; new_page := new_page e;
  set_default_timeout := set_default_timeout e;
  set_default_navigation_timeout := set_default_navigation_timeout e;
  page_close := f; context_close := context_close e;
  browser_close := browser_close e; pw_stop := pw_stop e;
  goto := goto e;
  wait_for_selector := wait_for_selector e;
  query_selector_all := query_selector_all e;
  inner_html := inner_html e; content := content e
|}.

Definition with_context_close (f : history -> handle -> reply unit)
  (e : Engine) : Engine := {|
  pw_start := pw_start e; chromium_launch := chromium_launch e;
  new_context := new_context e; new_page := new_page e;
  set_default_timeout := set_default_timeout e;
  set_default_navigation_timeout := set_default_navigation_timeout e;
  page_close := page_close e; context_close := f;
  browser_close := browser_close e; pw_stop := pw_stop e;
  goto := goto e;
  wait_for_selector := wait_for_selector e;
  query_selector_all := query_selector_all e;
  inner_html := inner_html e; content := content e
|}.

Definition with_content (f : history -> handle -> reply string)
  (e : Engine) : Engine := {|
  pw_start := pw_start e; chromium_launch := chromium_launch e;
  new_context := new_context e; new_page := new_page e;
  set_default_timeout := set_default_timeout e;
  set_default_navigation_timeout := set_default_navigation_timeout e;
  page_close := page_close e; context_close := context_close e;
  browser_close := browser_close e; pw_stop := pw_stop e;
  goto := goto e;
  wait_for_selector := wait_for_selector e;
  query_selector_all := query_selector_all e;
  inner_html := inner_html e; content := f
|}.

(** Navigation times out on every call. *)
Definition unreachable : Engine :=
  with_goto (fun _ _ _ _ => Fail (PlaywrightTimeoutError "Timeout 30000ms exceeded."))
    cooperative.

(** Navigation fails on its first [k] calls and succeeds from then on. *)
Definition flaky (k : nat) : Engine :=
  with_goto (fun h _ _ _ =>
               if (count is_goto h <? k)%nat
               then Fail (PlaywrightError "net::ERR_CONNECTION_RESET")
               else Done tt)
    cooperative.

(** The list container never shows: the wait ends in the engine's timeout
    error. *)
Definition no_list : Engine :=
  with_wait_for_selector
    (fun _ _ _ _ => Fail (PlaywrightTimeoutError "Timeout 10000ms exceeded."))
    cooperative.

(** The wait hands back no element. *)
Definition null_list : Engine :=
  with_wait_for_selector (fun _ _ _ _ => Done None) cooperative.

(** Closing the page fails. *)
Definition stuck_page : Engine :=
  with_page_close (fun _ _ => Fail (PlaywrightError "Target closed")) cooperative.

(** Closing the context fails. *)
Definition stuck_context : Engine :=
  with_context_close (fun _ _ => Fail (PlaywrightError "Target closed")) cooperative.

Definition cfg (retries : Z) : Config := {|
  browser := {| headless := true; user_agent := "Mozilla/5.0";
                viewport_width := 1920; viewport_height := 1080;
                default_timeout := 10000; navigation_timeout := 30000 |};
  selectors := {| property_list := "div.list"; property_item := "div.item" |};
  scraping := {| max_retries := retries; retry_delay := 2000 |}
|}.

Definition url : string := "https://example.org/listings".

(** Launching the browser fails. *)
Definition no_browser : Engine := {|
  pw_start := pw_start cooperative;
  chromium_launch := fun _ _ _ => Fail (PlaywrightError "Executable doesn't exist");
  new_context := new_context cooperative; new_page := new_page cooperative;
  set_default_timeout := set_default_timeout cooperative;
  set_default_navigation_timeout := set_default_navigation_timeout cooperative;
  page_close := page_close cooperative; context_close := context_close cooperative;
  browser_close := browser_close cooperative; pw_stop := pw_stop cooperative;
  goto := goto cooperative;
  wait_for_selector := wait_for_selector cooperative;
  query_selector_all := query_selector_all cooperative;
  inner_html := inner_html cooperative; content := content cooperative
|}.

(** [c * n] in Python. *)
Fixpoint times (c : ascii) (n : nat) : string :=
  match n with
  | O => EmptyString
  | S n' => String c (times c n')
  end.

(** The page content is 500 characters long. *)
Definition short_content : Engine :=
  with_content (fun _ _ => Done (times "x"%char 500)) cooperative.

(** Reading the page content fails. *)
Definition no_content : Engine :=
  with_content (fun _ _ => Fail (PlaywrightError "Execution context was destroyed"))
    cooperative.

(** The engine cannot be started: the start call hands back nothing. *)
Definition no_engine : Engine := {|
  pw_start := fun _ => Done None;
  chromium_launch := chromium_launch cooperative;
  new_context := new_context cooperative; new_page := new_page cooperative;
  set_default_timeout := set_default_timeout cooperative;
  set_default_navigation_timeout := set_default_navigation_timeout cooperative;
  page_close := page_close cooperative; context_close := context_close cooperative;
  browser_close := browser_close cooperative; pw_stop := pw_stop cooperative;
  goto := goto cooperative;
  wait_for_selector := wait_for_selector cooperative;
  query_selector_all := query_selector_all cooperative;
  inner_html := inner_html cooperative; content := content cooperative
|}.

(** A session after a successful [connect] on [cooperative]. *)
Definition connected : St :=
  {| self := {| _playwright := Some 1%nat; _browser := Some 2%nat;
                _page := Some 4%nat; _context := Some 3%nat |};
     trace := [] |}.

End Mock.

(** ** Notions the properties are stated with *)

Unset Implicit Arguments.

(** [only_emits P m]: a run of [m] assigns no attribute of the manager and
    appends only events that satisfy [P]. *)
Definition only_emits {A} (P : Event -> bool) (m : M A) : Prop :=
  forall s, exists o evs,
    m s = (o, {| self := self s; trace := trace s ++ evs |}) /\ forallb P evs = true.

(** What a fetch operation may append: no call that starts, launches or
    releases a resource, and no sleep other than the settle delay of 5
    seconds and the configured retry delay. *)
Definition is_fetch_event (config : Config) (ev : Event) : bool :=
  match ev with
  | EGoto _ _ _ | EWaitForSelector _ _ _ | EQuerySelectorAll _ _
  | EInnerHtml _ | EContent _ | ELog _ _ => true
  | ESleep (Seconds n) => n =? 5
  | ESleep (MillisAsSeconds ms) => ms =? retry_delay (scraping config)
  | _ => false
  end.

(** What one attempt appends after its navigation. *)
Definition is_after_goto (ev : Event) : bool :=
  match ev with
  | EWaitForSelector _ _ _ | EQuerySelectorAll _ _ | EInnerHtml _
  | ESleep (Seconds _) | ELog _ _ => true
  | _ => false
  end.

(** [terminates m]: no run of [m] is cut short by missing fuel. *)
Definition terminates {A} (m : M A) : Prop :=
  forall s, fst (m s) <> OutOfFuel.

(** Every release call of the engine succeeds, whatever happened before. *)
Definition reliable_release (eng : Engine) : Prop :=
  (forall h p, page_close eng h p = Done tt) /\
  (forall h c, context_close eng h c = Done tt) /\
  (forall h b, browser_close eng h b = Done tt) /\
  (forall h pw, pw_stop eng h pw = Done tt).

Definition opt_event (f : handle -> Event) (o : option handle) : history :=
  match o with Some x => [f x] | None => [] end.

(** The release calls a complete teardown of [bm] makes, in their order. *)
Definition release_events (bm : BrowserManager) : history :=
  opt_event EPageClose (_page bm) ++ opt_event EContextClose (_context bm) ++
  opt_event EBrowserClose (_browser bm) ++ opt_event EStop (_playwright bm).

(** The engine's answer to a release call made after history [h]. *)
Definition release_reply (eng : Engine) (h : history) (ev : Event) : reply unit :=
  match ev with
  | EPageClose p => page_close eng h p
  | EContextClose c => context_close eng h c
  | EBrowserClose b => browser_close eng h b
  | EStop pw => pw_stop eng h pw
  | _ => Done tt
  end.

(** [keeps_or_clears bm' bm]: every handle of [bm'] is the one of [bm] or
    [None]. *)
Definition keeps_or_clears (bm' bm : BrowserManager) : Prop :=
  (_playwright bm' = None \/ _playwright bm' = _playwright bm) /\
  (_browser bm' = None \/ _browser bm' = _browser bm) /\
  (_context bm' = None \/ _context bm' = _context bm) /\
  (_page bm' = None \/ _page bm' = _page bm).

(** Every launch call of the engine succeeds, whatever happened before. *)
Definition reliable_launch (eng : Engine) : Prop :=
  (forall h, exists pw, pw_start eng h = Done (Some pw)) /\
  (forall h pw hl, exists b, chromium_launch eng h pw hl = Done b) /\
  (forall h b ua vw vh, exists c, new_context eng h b ua vw vh = Done c) /\
  (forall h c, exists p, new_page eng h c = Done p) /\
  (forall h p t, set_default_timeout eng h p t = Done tt) /\
  (forall h p t, set_default_navigation_timeout eng h p t = Done tt).

(** The markup the loop keeps, in the order of the elements. *)
Fixpoint kept (htmls : list (option string)) : list string :=
  match htmls with
  | [] => []
  | Some (String a w) :: rest => String a w :: kept rest
  | _ :: rest => kept rest
  end.

(** The warnings of the two sanity checks on the content. *)
Definition content_warnings (c : string) : history :=
  if len c <? 1000 then [ELog WARNING "Content seems too short, might be incomplete"]
  else if negb (str_in "prices-summary" c)
       then [ELog WARNING "Expected content markers not found in page"]
       else [].

(** The shapes of a run of [get_properties]. *)
Section Shapes.

Variable eng : Engine.
Variable config : Config.
Variable url : string.

(** The first log record of an attempt. *)
Definition navigating : Event := ELog INFO ("Navigating to " ++ url)%string.

(** The last log record of an attempt that found [n] fragments. *)
Definition found (n : nat) : Event :=
  ELog INFO ("Found " ++ str_of_int (Z.of_nat n) ++ " properties for URL: " ++ url)%string.

(** The part of an attempt that follows the navigation. *)
Definition after_goto (url : string) : M (list string) :=
  sleep (Seconds 5) ;;
  property_list <-
    on_page "wait_for_selector" (fun p =>
      call (EWaitForSelector p (property_list (selectors config))
              (default_timeout (browser config)))
        (fun h => wait_for_selector eng h p (property_list (selectors config))
                    (default_timeout (browser config)))) ;;
  match property_list with
  | None =>
      log WARNING "Property list selector not found" ;;
      ret []
  | Some _ =>
      property_elements <-
        on_page "query_selector_all" (fun p =>
          call (EQuerySelectorAll p (property_item (selectors config)))
            (fun h => query_selector_all eng h p (property_item (selectors config)))) ;;
      html_elements <- collect eng property_elements [] ;;
      log INFO ("Found " ++ str_of_int (Z.of_nat (List.length html_elements))
                ++ " properties for URL: " ++ url)%string ;;
      ret html_elements
  end.

(** What the handler appends before it calls [get_properties] again. *)
Definition retry_events (url : string) (retry_count : Z) (e : exn) : history :=
  [ELog ERROR ("Error fetching properties from " ++ url ++ ": "
               ++ str_of_exn e)%string;
   ELog INFO ("Retrying (" ++ str_of_int (retry_count + 1) ++ "/"
              ++ str_of_int (max_retries (scraping config)) ++ ")")%string;
   ESleep (MillisAsSeconds (retry_delay (scraping config)))].

(** The state in which the next attempt starts after the attempt with
    counter [retry_count] failed with [e] in state [s1]. *)
Definition before_retry (url : string) (retry_count : Z) (e : exn) (s1 : St) : St :=
  {| self := self s1; trace := trace s1 ++ retry_events url retry_count e |}.

(** The state in which the last failure is handed to the caller. *)
Definition after_give_up (url : string) (e : exn) (s1 : St) : St :=
  {| self := self s1;
     trace := trace s1 ++
       [ELog ERROR ("Error fetching properties from " ++ url ++ ": "
                    ++ str_of_exn e)%string] |}.

End Shapes.

(** The events of an attempt that goes through on page [p] with the
    elements [els] and their markup [html_of]. *)
Definition attempt_events (config : Config) (url : string) (p : handle)
    (els : list handle) (html_of : handle -> option string) : history :=
  [navigating url; EGoto p url None; ESleep (Seconds 5);
   EWaitForSelector p (property_list (selectors config))
     (default_timeout (browser config));
   EQuerySelectorAll p (property_item (selectors config))]
  ++ map EInnerHtml els
  ++ [found url (List.length (kept (map html_of els)))].

(** A release call that returned. *)
Definition went_through (r : reply unit) : bool :=
  match r with Done _ => true | Fail _ => false end.

(** [all_released eng h calls]: made one after the other from the history
    [h] on, the release calls [calls] all return. *)
Fixpoint all_released (eng : Engine) (h : history) (calls : history) : bool :=
  match calls with
  | [] => true
  | x :: rest => went_through (release_reply eng h x) && all_released eng (h ++ [x]) rest
  end.

(** ** Shapes of a run of [connect] *)


(** What [_initialize_playwright] appends when it starts the engine. *)
Definition start_events : history :=
  [ELog DEBUG "Initializing Playwright"; EStart].

(** What [connect] appends from the launch of the browser on, when every
    step goes through with the engine [pw], the browser [b], the context [c]
    and the page [p]. *)
Definition launch_events (config : Config) (pw b c p : handle) : history :=
  [ELog INFO "Launching browser...";
   ELaunch pw (headless (browser config));
   ENewContext b (user_agent (browser config))
     (viewport_width (browser config)) (viewport_height (browser config));
   ENewPage c;
   ESetDefaultTimeout p (default_timeout (browser config));
   ESetDefaultNavigationTimeout p (navigation_timeout (browser config));
   ELog INFO "Browser launched successfully"].

(** What the handler of [connect] appends around the teardown of the
    handles [bm] when every release call goes through. *)
Definition failed_launch_events (e : exn) (bm : BrowserManager) : history :=
  [ELog ERROR ("Failed to launch browser: " ++ str_of_exn e)%string]
  ++ release_events bm
  ++ [ELog INFO "Browser resources cleaned up"].

(** What [close] may append: release calls and log records. *)
Definition is_teardown_event (ev : Event) : bool :=
  match ev with
  | ELog _ _ => true
  | _ => is_release ev
  end.

(** * Properties *)

(** ** Reasoning about runs *)

Lemma count_app (f : Event -> bool) (h1 h2 : history) :
  count f (h1 ++ h2) = (count f h1 + count f h2)%nat.
Proof. unfold count. now rewrite filter_app, length_app. Qed.

Lemma count_none (f : Event -> bool) (h : history) :
  forallb (fun ev => negb (f ev)) h = true -> count f h = 0%nat.
Proof.
  unfold count. induction h as [|ev h IH]; cbn; [reflexivity|].
  destruct (f ev); cbn; [discriminate | exact IH].
Qed.

Lemma st_eta (s : St) : {| self := self s; trace := trace s |} = s.
Proof. now destruct s. Qed.

Lemma st_nil (s : St) : {| self := self s; trace := trace s ++ [] |} = s.
Proof. rewrite app_nil_r. apply st_eta. Qed.

Section OnlyEmits.

Variable P : Event -> bool.

Lemma only_emits_ret {A} (a : A) : only_emits P (ret a).
Proof. intro s. exists (Returned a), []. now rewrite st_nil. Qed.

Lemma only_emits_raise {A} (e : exn) : only_emits P (@raise A e).
Proof. intro s. exists (Raised e), []. now rewrite st_nil. Qed.

Lemma only_emits_out_of_fuel {A} : only_emits P (fun s => (@OutOfFuel A, s)).
Proof. intro s. exists OutOfFuel, []. now rewrite st_nil. Qed.

Lemma only_emits_get_self : only_emits P get_self.
Proof. intro s. exists (Returned (self s)), []. unfold get_self. now rewrite st_nil. Qed.

Lemma only_emits_emit (ev : Event) : P ev = true -> only_emits P (emit ev).
Proof. intros H s. exists (Returned tt), [ev]. cbn. now rewrite H. Qed.

Lemma only_emits_call {A} (ev : Event) (f : history -> reply A) :
  P ev = true -> only_emits P (call ev f).
Proof.
  intros H s. unfold call. destruct (f (trace s)) as [a|e].
  - exists (Returned a), [ev]. cbn. now rewrite H.
  - exists (Raised e), [ev]. cbn. now rewrite H.
Qed.

Lemma only_emits_bind {A B} (m : M A) (k : A -> M B) :
  only_emits P m -> (forall a, only_emits P (k a)) -> only_emits P (bind m k).
Proof.
  intros Hm Hk s. unfold bind.
  destruct (Hm s) as (o & evs & -> & Hevs).
  destruct o as [a|e|].
  - destruct (Hk a {| self := self s; trace := trace s ++ evs |})
      as (o' & evs' & -> & Hevs').
    exists o', (evs ++ evs'). cbn. rewrite app_assoc, forallb_app, Hevs, Hevs'. auto.
  - exists (Raised e), evs. auto.
  - exists OutOfFuel, evs. auto.
Qed.

Lemma only_emits_try_except {A} (m : M A) (k : exn -> M A) :
  only_emits P m -> (forall e, only_emits P (k e)) -> only_emits P (try_except m k).
Proof.
  intros Hm Hk s. unfold try_except.
  destruct (Hm s) as (o & evs & -> & Hevs).
  destruct o as [a|e|].
  - exists (Returned a), evs. auto.
  - destruct (Hk e {| self := self s; trace := trace s ++ evs |})
      as (o' & evs' & -> & Hevs').
    exists o', (evs ++ evs'). cbn. rewrite app_assoc, forallb_app, Hevs, Hevs'. auto.
  - exists OutOfFuel, evs. auto.
Qed.

Lemma only_emits_on_page {A} (name : string) (k : handle -> M A) :
  (forall p, only_emits P (k p)) -> only_emits P (on_page name k).
Proof.
  intros Hk. unfold on_page. apply only_emits_bind; [apply only_emits_get_self|].
  intros bm. destruct (_page bm); [apply Hk | apply only_emits_raise].
Qed.

End OnlyEmits.

(** Breaks a method body down to its engine calls and log records. *)
Ltac emits_step :=
  lazymatch goal with
  | |- only_emits _ (on_page _ _) => apply only_emits_on_page; intros ?
  | |- only_emits _ (bind _ _) => apply only_emits_bind; [|intros ?]
  | |- only_emits _ (try_except _ _) => apply only_emits_try_except; [|intros ?]
  | |- only_emits _ (match ?x with _ => _ end) => destruct x
  | |- only_emits _ (call _ _) => apply only_emits_call; reflexivity
  | |- only_emits _ (emit _) =>
      apply only_emits_emit; first [reflexivity | apply Z.eqb_refl]
  | |- only_emits _ (ret _) => apply only_emits_ret
  | |- only_emits _ (raise _) => apply only_emits_raise
  | |- only_emits _ get_self => apply only_emits_get_self
  | |- only_emits _ (fun s => (OutOfFuel, s)) => apply only_emits_out_of_fuel
  end.

Ltac emits := unfold log, sleep; repeat emits_step.

Section FetchRuns.

Variable eng : Engine.
Variable config : Config.

Lemma collect_only_emits (P : Event -> bool) :
  (forall el, P (EInnerHtml el) = true) ->
  forall els acc, only_emits P (collect eng els acc).
Proof.
  intros HP els. induction els as [|el els IH]; intros acc; cbn [collect].
  - apply only_emits_ret.
  - apply only_emits_bind; [apply only_emits_call, HP|].
    intros [[|a w]|]; apply IH.
Qed.

Lemma attempt_unfold (url : string) :
  attempt eng config url =
    (log INFO ("Navigating to " ++ url)%string ;;
     on_page "goto" (fun p =>
       call (EGoto p url None) (fun h => goto eng h p url None)) ;;
     after_goto eng config url).
Proof. reflexivity. Qed.

Lemma after_goto_only_emits (url : string) :
  only_emits is_after_goto (after_goto eng config url).
Proof.
  unfold after_goto. emits. apply collect_only_emits. reflexivity.
Qed.

Lemma attempt_only_emits (url : string) :
  only_emits (is_fetch_event config) (attempt eng config url).
Proof.
  unfold attempt. emits. apply collect_only_emits. reflexivity.
Qed.

Lemma get_properties_fuel_only_emits (url : string) :
  forall fuel retry_count,
    only_emits (is_fetch_event config) (get_properties_fuel eng config fuel url retry_count).
Proof.
  induction fuel as [|fuel IH]; intros r; cbn [get_properties_fuel].
  - emits. apply attempt_only_emits.
  - emits; [apply attempt_only_emits | apply IH].
Qed.

Lemma get_page_content_only_emits (url : string) :
  only_emits (is_fetch_event config) (get_page_content eng config url).
Proof.
  unfold get_page_content. emits.
Qed.

End FetchRuns.

(** ** Termination of the retry recursion *)

Lemma terminates_ret {A} (a : A) : terminates (ret a).
Proof. intros s. cbn. discriminate. Qed.

Lemma terminates_raise {A} (e : exn) : terminates (@raise A e).
Proof. intros s. cbn. discriminate. Qed.

Lemma terminates_get_self : terminates get_self.
Proof. intros s. cbn. discriminate. Qed.

Lemma terminates_emit (ev : Event) : terminates (emit ev).
Proof. intros s. cbn. discriminate. Qed.

Lemma terminates_call {A} (ev : Event) (f : history -> reply A) : terminates (call ev f).
Proof. intros s. unfold call. destruct (f (trace s)); cbn; discriminate. Qed.

Lemma terminates_bind {A B} (m : M A) (k : A -> M B) :
  terminates m -> (forall a, terminates (k a)) -> terminates (bind m k).
Proof.
  intros Hm Hk s. unfold bind. specialize (Hm s).
  destruct (m s) as [[a|e|] s']; cbn in *; [apply Hk | discriminate | now elim Hm].
Qed.

Lemma terminates_try_except {A} (m : M A) (k : exn -> M A) :
  terminates m -> (forall e, terminates (k e)) -> terminates (try_except m k).
Proof.
  intros Hm Hk s. unfold try_except. specialize (Hm s).
  destruct (m s) as [[a|e|] s']; cbn in *; [discriminate | apply Hk | exact Hm].
Qed.

Lemma terminates_on_page {A} (name : string) (k : handle -> M A) :
  (forall p, terminates (k p)) -> terminates (on_page name k).
Proof.
  intros Hk. unfold on_page. apply terminates_bind; [apply terminates_get_self|].
  intros bm. destruct (_page bm); [apply Hk | apply terminates_raise].
Qed.

Ltac terminates_step :=
  lazymatch goal with
  | |- terminates (on_page _ _) => apply terminates_on_page; intros ?
  | |- terminates (bind _ _) => apply terminates_bind; [|intros ?]
  | |- terminates (try_except _ _) => apply terminates_try_except; [|intros ?]
  | |- terminates (if ?x <? ?y then _ else _) => destruct (Z.ltb_spec x y)
  | |- terminates (match ?x with _ => _ end) => destruct x
  | |- terminates (call _ _) => apply terminates_call
  | |- terminates (emit _) => apply terminates_emit
  | |- terminates (ret _) => apply terminates_ret
  | |- terminates (raise _) => apply terminates_raise
  | |- terminates get_self => apply terminates_get_self
  end.

Section Retry.

Variable eng : Engine.
Variable config : Config.

Lemma collect_terminates :
  forall els acc, terminates (collect eng els acc).
Proof.
  induction els as [|el els IH]; intros acc; cbn [collect].
  - apply terminates_ret.
  - apply terminates_bind; [apply terminates_call|].
    intros [[|a w]|]; apply IH.
Qed.

Lemma attempt_terminates (url : string) : terminates (attempt eng config url).
Proof.
  unfold attempt, log, sleep. repeat terminates_step. apply collect_terminates.
Qed.

Lemma get_properties_fuel_terminates (url : string) :
  forall fuel retry_count,
    max_retries (scraping config) - retry_count <= Z.of_nat fuel ->
    terminates (get_properties_fuel eng config fuel url retry_count).
Proof.
  induction fuel as [|fuel IH]; intros r Hr; cbn [get_properties_fuel];
    unfold log, sleep.
  - repeat terminates_step; try apply attempt_terminates. lia.
  - repeat terminates_step; try apply attempt_terminates. apply IH. lia.
Qed.

(** [get_properties] is total: the fuel it starts with is enough. *)
Lemma get_properties_total (url : string) (retry_count : Z) (s : St) :
  (exists v s', get_properties eng config url retry_count s = (Returned v, s')) \/
  (exists e s', get_properties eng config url retry_count s = (Raised e, s')).
Proof.
  pose proof (@get_properties_fuel_terminates url
    (Z.to_nat (max_retries (scraping config) - retry_count)) retry_count) as H.
  specialize (H ltac:(lia) s). unfold get_properties.
  destruct (get_properties_fuel _ _ _ _ _ s) as [[v|e|] s']; cbn in H.
  - left. eauto.
  - right. eauto.
  - congruence.
Qed.

Lemma get_properties_success (url : string) (r : Z) (s s1 : St) (p : handle) v :
  _page (self s) = Some p ->
  attempt eng config url s = (Returned v, s1) ->
  get_properties eng config url r s = (Returned v, s1).
Proof.
  intros Hp Ha. unfold get_properties.
  destruct (Z.to_nat _); cbn [get_properties_fuel];
    unfold bind at 1, get_self; rewrite Hp; unfold try_except; now rewrite Ha.
Qed.

Lemma get_properties_give_up (url : string) (r : Z) (s s1 : St) (p : handle) e :
  _page (self s) = Some p ->
  attempt eng config url s = (Raised e, s1) ->
  max_retries (scraping config) <= r ->
  get_properties eng config url r s = (Raised e, after_give_up url e s1).
Proof.
  intros Hp Ha Hr. unfold get_properties.
  destruct (Z.to_nat _); cbn [get_properties_fuel];
    unfold bind at 1, get_self; rewrite Hp; unfold try_except; rewrite Ha;
    destruct (Z.ltb_spec r (max_retries (scraping config))); try lia; reflexivity.
Qed.

Lemma get_properties_retry (url : string) (r : Z) (s s1 : St) (p : handle) e :
  _page (self s) = Some p ->
  attempt eng config url s = (Raised e, s1) ->
  r < max_retries (scraping config) ->
  get_properties eng config url r s =
    get_properties eng config url (r + 1) (before_retry config url r e s1).
Proof.
  intros Hp Ha Hr. unfold get_properties.
  replace (Z.to_nat (max_retries (scraping config) - r))
    with (S (Z.to_nat (max_retries (scraping config) - (r + 1)))) by lia.
  cbn [get_properties_fuel].
  unfold bind at 1, get_self; rewrite Hp; unfold try_except; rewrite Ha.
  destruct (Z.ltb_spec r (max_retries (scraping config))); try lia.
  unfold before_retry, retry_events, bind, log, sleep, emit; cbn [self trace].
  now rewrite <- !app_assoc.
Qed.

End Retry.

(** ** Teardown *)

Ltac run_method :=
  cbv beta iota zeta delta
    [bind try_except set_page set_context set_browser set_playwright on_page
     get_self put_self log sleep emit call ret raise
     self trace _page _context _browser _playwright fst snd].

Section Teardown.

Variable eng : Engine.

Lemma close_reliable (s : St) :
  reliable_release eng ->
  close eng s =
    (Returned tt,
     {| self := init;
        trace := trace s ++ release_events (self s)
                   ++ [ELog INFO "Browser resources cleaned up"] |}).
Proof.
  intros (Hp & Hc & Hb & Hs). destruct s as [[pw b p c] tr].
  unfold close, close_body, release_events, opt_event.
  destruct p, c, b, pw; run_method;
    repeat (rewrite ?Hp, ?Hc, ?Hb, ?Hs; run_method);
    unfold init; cbn [app]; rewrite <- ?app_assoc; reflexivity.
Qed.

Lemma close_returns (s : St) : exists s', close eng s = (Returned tt, s').
Proof.
  destruct s as [[pw b p c] tr]. unfold close, close_body.
  destruct p as [p|]; run_method; [destruct (page_close eng _ p)|]; eauto;
    (destruct c as [c|]; run_method; [destruct (context_close eng _ c)|]; eauto;
     (destruct b as [b|]; run_method; [destruct (browser_close eng _ b)|]; eauto;
      (destruct pw as [pw|]; run_method; [destruct (pw_stop eng _ pw)|]; eauto))).
Qed.

Lemma close_keeps_or_clears (s : St) :
  keeps_or_clears (self (snd (close eng s))) (self s).
Proof.
  destruct s as [[pw b p c] tr]. unfold close, close_body, keeps_or_clears.
  destruct p as [p|]; run_method; [destruct (page_close eng _ p)|];
    run_method; auto;
    (destruct c as [c|]; run_method; [destruct (context_close eng _ c)|];
     run_method; auto;
     (destruct b as [b|]; run_method; [destruct (browser_close eng _ b)|];
      run_method; auto;
      (destruct pw as [pw|]; run_method; [destruct (pw_stop eng _ pw)|];
       run_method; auto 6))).
Qed.

Lemma close_cleared (s : St) :
  cleared (self s) = true ->
  close eng s =
    (Returned tt,
     {| self := self s;
        trace := trace s ++ [ELog INFO "Browser resources cleaned up"] |}).
Proof.
  destruct s as [[[pw|] [b|] [p|] [c|]] tr]; cbn; try discriminate. reflexivity.
Qed.

(** One release step of [close_body]: the answer of the engine is named. *)
Ltac release_step f :=
  match goal with
  | |- context [match f eng ?h ?x with Done _ => _ | Fail _ => _ end] =>
      let E := fresh "E" in
      destruct (f eng h x) as [[]|?e] eqn:E; run_method
  end.

(** The run ended in the handler of [close]: the release calls made split
    into the ones that went through and the one that failed. *)
Ltac failed_release :=
  right; rewrite <- ?app_assoc in *; cbn [app] in *;
  match goal with
  | H : _ = Fail ?e |- context [{| self := ?bm; trace := ?tr ++ ?l |}] =>
      exists (removelast (removelast l)), (last (removelast l) EStart),
             (tl (release_events bm)), e, bm;
      cbn [removelast last tl release_events opt_event app
           _page _context _browser _playwright release_reply];
      rewrite ?app_nil_r; repeat split; assumption
  end.

(** [close] either completes the teardown, or stops at the first release
    call [x] that raises: the calls before [x] were made and their handles
    cleared, [x] and the calls after it are still pending in the state
    [close] returns with. *)
Lemma close_outcome (s : St) :
  close eng s =
    (Returned tt,
     {| self := init;
        trace := trace s ++ release_events (self s)
                   ++ [ELog INFO "Browser resources cleaned up"] |}) \/
  (exists done x rest e bm',
     release_events (self s) = done ++ x :: rest /\
     release_events bm' = x :: rest /\
     release_reply eng (trace s ++ done) x = Fail e /\
     close eng s =
       (Returned tt,
        {| self := bm';
           trace := trace s ++ done ++
             [x; ELog ERROR ("Error during cleanup: " ++ str_of_exn e)%string] |})).
Proof.
  destruct s as [[pw b p c] tr]. unfold close, close_body.
  cbn [self trace release_events opt_event _page _context _browser _playwright].
  destruct p as [p|]; run_method; [release_step page_close; [|failed_release]|];
    (destruct c as [c|]; run_method; [release_step context_close; [|failed_release]|];
     (destruct b as [b|]; run_method; [release_step browser_close; [|failed_release]|];
      (destruct pw as [pw|]; run_method; [release_step pw_stop; [|failed_release]|];
       left; unfold init; cbn [app]; rewrite <- ?app_assoc; reflexivity))).
Qed.

End Teardown.

(** ** Launch *)

(** Opens the state record, so that attribute reads compute. *)
Ltac open_state s :=
  destruct s as [[? ? ? ?] ?];
  cbn [self trace _page _context _browser _playwright] in *; subst.

Ltac destruct_reply :=
  match goal with
  | |- context [match ?r with Done _ => _ | Fail _ => _ end] => destruct r
  | H : context [match ?r with Done _ => _ | Fail _ => _ end] |- _ => destruct r
  end.

Section Launch.

Variable eng : Engine.
Variable config : Config.

Lemma connect_outcome (s : St) :
  (exists s', connect eng config s = (Returned tt, s') /\
              connect_body eng config s = (Returned tt, s')) \/
  (exists e s1 s',
      connect eng config s = (Raised e, s') /\
      connect_body eng config s = (Raised e, s1) /\
      close eng {| self := self s1;
                   trace := trace s1 ++
                     [ELog ERROR ("Failed to launch browser: " ++ str_of_exn e)%string] |}
        = (Returned tt, s')).
Proof.
  assert (T : terminates (connect_body eng config)).
  { unfold connect_body, _initialize_playwright, log, set_playwright, set_browser,
      set_context, set_page.
    repeat terminates_step; intros ?; cbn; discriminate. }
  unfold connect, try_except. specialize (T s).
  destruct (connect_body eng config s) as [[[]|e|] s1]; cbn in T.
  - left. eauto.
  - right. exists e, s1.
    destruct (close_returns eng
      {| self := self s1;
         trace := trace s1 ++
           [ELog ERROR ("Failed to launch browser: " ++ str_of_exn e)%string] |})
      as [s' Hs'].
    exists s'. split; [|split]; auto.
    unfold bind at 1. unfold log, emit. unfold bind. now rewrite Hs'.
  - congruence.
Qed.

Lemma connect_body_success (s s' : St) :
  connect_body eng config s = (Returned tt, s') -> ready (self s') = true.
Proof.
  destruct s as [[pw b p c] tr]. unfold connect_body, _initialize_playwright.
  destruct pw as [pw|]; run_method; repeat (destruct_reply; run_method);
    try discriminate;
    try (intros [= <-]; reflexivity).
  destruct a; run_method; repeat (destruct_reply; run_method);
    try discriminate;
    try (intros [= <-]; reflexivity).
Qed.

Lemma connect_reliable (s : St) :
  reliable_launch eng ->
  exists s', connect eng config s = (Returned tt, s') /\ ready (self s') = true.
Proof.
  intros (Hs & Hl & Hc & Hp & Ht & Hn).
  assert (exists s', connect_body eng config s = (Returned tt, s')) as [s' Hs'].
  { destruct s as [[pw b p c] tr]. unfold connect_body, _initialize_playwright.
    destruct pw as [pw|]; run_method.
    - destruct (Hl (tr ++ [ELog INFO "Launching browser..."]) pw
                  (headless (browser config))) as [b' ->]. run_method.
      match goal with |- context [new_context eng ?h ?x ?u ?w ?v] =>
        destruct (Hc h x u w v) as [c' ->] end. run_method.
      match goal with |- context [new_page eng ?h ?x] =>
        destruct (Hp h x) as [p' ->] end. run_method.
      rewrite Ht. run_method. rewrite Hn. run_method. eauto.
    - match goal with |- context [pw_start eng ?h] =>
        destruct (Hs h) as [pw ->] end. run_method.
      match goal with |- context [chromium_launch eng ?h ?x ?u] =>
        destruct (Hl h x u) as [b' ->] end. run_method.
      match goal with |- context [new_context eng ?h ?x ?u ?w ?v] =>
        destruct (Hc h x u w v) as [c' ->] end. run_method.
      match goal with |- context [new_page eng ?h ?x] =>
        destruct (Hp h x) as [p' ->] end. run_method.
      rewrite Ht. run_method. rewrite Hn. run_method. eauto. }
  exists s'. split; [|eapply connect_body_success; eauto].
  unfold connect, try_except. now rewrite Hs'.
Qed.

Lemma connect_failure_clears (s s' : St) (e : exn) :
  reliable_release eng ->
  connect eng config s = (Raised e, s') -> self s' = init.
Proof.
  intros Hr H. destruct (connect_outcome s) as [(s1 & H1 & _)|(e1 & s1 & s2 & H1 & _ & H2)].
  - congruence.
  - rewrite close_reliable in H2 by assumption.
    rewrite H1 in H. injection H as <- <-. now injection H2 as <-.
Qed.

End Launch.

(** ** One attempt of [get_properties] *)

Lemma forallb_weaken (P Q : Event -> bool) (h : history) :
  (forall ev, P ev = true -> Q ev = true) ->
  forallb P h = true -> forallb Q h = true.
Proof.
  intros HPQ. induction h as [|ev h IH]; cbn; [reflexivity|].
  intros [H1 H2]%andb_prop. now rewrite (HPQ _ H1), IH.
Qed.

Lemma kept_filter (htmls : list (option string)) :
  map Some (kept htmls) = filter truthy htmls.
Proof.
  induction htmls as [|[[|a w]|] rest IH]; cbn; congruence.
Qed.

Lemma map_Some_inj (l l' : list string) : map Some l = map Some l' -> l = l'.
Proof.
  revert l'. induction l as [|a l IH]; intros [|b l']; cbn; try discriminate.
  - reflexivity.
  - intros [= -> H]. f_equal. now apply IH.
Qed.

Lemma kept_length (htmls : list (option string)) :
  List.length (kept htmls) = List.length (filter truthy htmls).
Proof. now rewrite <- kept_filter, length_map. Qed.

Section Attempt.

Variable eng : Engine.
Variable config : Config.
Variable url : string.

Lemma attempt_goto_failure (s : St) (p : handle) (e : exn) :
  _page (self s) = Some p ->
  goto eng (trace s ++ [navigating url]) p url None = Fail e ->
  attempt eng config url s =
    (Raised e, {| self := self s;
                  trace := trace s ++ [navigating url; EGoto p url None] |}).
Proof.
  intros Hp Hg. rewrite attempt_unfold. open_state s. run_method.
  fold (navigating url). rewrite Hg. now rewrite <- app_assoc.
Qed.

Lemma attempt_goto_success (s : St) (p : handle) :
  _page (self s) = Some p ->
  goto eng (trace s ++ [navigating url]) p url None = Done tt ->
  attempt eng config url s =
    after_goto eng config url
      {| self := self s; trace := trace s ++ [navigating url; EGoto p url None] |}.
Proof.
  intros Hp Hg. rewrite attempt_unfold. open_state s. run_method.
  fold (navigating url). rewrite Hg. now rewrite <- app_assoc.
Qed.

(** An attempt on a page navigates exactly once and never sleeps a retry
    delay; it leaves the manager's attributes alone. *)
Lemma attempt_counts (s : St) (p : handle) :
  _page (self s) = Some p ->
  exists o evs,
    attempt eng config url s = (o, {| self := self s; trace := trace s ++ evs |}) /\
    o <> OutOfFuel /\
    count is_goto evs = 1%nat /\ count is_retry_delay evs = 0%nat.
Proof.
  intros Hp.
  pose proof (@attempt_terminates eng config url s) as HT.
  destruct (goto eng (trace s ++ [navigating url]) p url None) as [[]|e] eqn:Hg.
  - rewrite (attempt_goto_success s p Hp Hg) in *.
    destruct (after_goto_only_emits eng config url
      {| self := self s; trace := trace s ++ [navigating url; EGoto p url None] |})
      as (o & evs & E & Hevs).
    rewrite E in *. cbn [self trace fst] in *.
    exists o, ([navigating url; EGoto p url None] ++ evs).
    rewrite app_assoc, !count_app. repeat split; auto.
    + rewrite (@count_none is_goto evs); [reflexivity|].
      revert Hevs. apply forallb_weaken. now intros [].
    + rewrite (@count_none is_retry_delay evs); [reflexivity|].
      revert Hevs. apply forallb_weaken. intros []; try easy. now destruct d.
  - rewrite (attempt_goto_failure s p e Hp Hg).
    exists (Raised e), [navigating url; EGoto p url None]. repeat split; easy.
Qed.

Lemma collect_all (html_of : handle -> option string) :
  forall els acc s,
    (forall h el, In el els -> inner_html eng h el = Done (html_of el)) ->
    collect eng els acc s =
      (Returned (acc ++ kept (map html_of els)),
       {| self := self s; trace := trace s ++ map EInnerHtml els |}).
Proof.
  induction els as [|el els IH]; intros acc s H; cbn [collect map kept].
  - unfold ret. now rewrite !app_nil_r, st_eta.
  - run_method. rewrite (H _ el) by now left.
    destruct (html_of el) as [[|a w]|]; rewrite IH by (intros; apply H; now right);
      cbn [self trace app]; rewrite <- ?app_assoc; reflexivity.
Qed.

(** What happens after a navigation when the list shows and every element
    hands over its markup. *)
Lemma after_goto_items (s : St) (p pl : handle) (els : list handle)
      (html_of : handle -> option string) :
  _page (self s) = Some p ->
  (forall h, wait_for_selector eng h p (property_list (selectors config))
               (default_timeout (browser config)) = Done (Some pl)) ->
  (forall h, query_selector_all eng h p (property_item (selectors config)) = Done els) ->
  (forall h el, In el els -> inner_html eng h el = Done (html_of el)) ->
  after_goto eng config url s =
    (Returned (kept (map html_of els)),
     {| self := self s;
        trace := trace s ++
          [ESleep (Seconds 5);
           EWaitForSelector p (property_list (selectors config))
             (default_timeout (browser config));
           EQuerySelectorAll p (property_item (selectors config))]
          ++ map EInnerHtml els
          ++ [found url (List.length (kept (map html_of els)))] |}).
Proof.
  intros Hp Hw Hq Hi. unfold after_goto. open_state s. run_method.
  rewrite Hw. run_method. rewrite Hq. run_method.
  rewrite (collect_all html_of) by assumption.
  cbn [self trace app]. unfold found. rewrite <- !app_assoc. reflexivity.
Qed.

(** What happens after a navigation when the wait hands back [None]. *)
Lemma after_goto_none (s : St) (p : handle) :
  _page (self s) = Some p ->
  wait_for_selector eng (trace s ++ [ESleep (Seconds 5)]) p
    (property_list (selectors config)) (default_timeout (browser config)) = Done None ->
  after_goto eng config url s =
    (Returned [],
     {| self := self s;
        trace := trace s ++
          [ESleep (Seconds 5);
           EWaitForSelector p (property_list (selectors config))
             (default_timeout (browser config));
           ELog WARNING "Property list selector not found"] |}).
Proof.
  intros Hp Hw. unfold after_goto. open_state s. run_method.
  rewrite Hw. now rewrite <- !app_assoc.
Qed.

(** What happens after a navigation when the wait raises. *)
Lemma after_goto_wait_failure (s : St) (p : handle) (e : exn) :
  _page (self s) = Some p ->
  wait_for_selector eng (trace s ++ [ESleep (Seconds 5)]) p
    (property_list (selectors config)) (default_timeout (browser config)) = Fail e ->
  after_goto eng config url s =
    (Raised e,
     {| self := self s;
        trace := trace s ++
          [ESleep (Seconds 5);
           EWaitForSelector p (property_list (selectors config))
             (default_timeout (browser config))] |}).
Proof.
  intros Hp Hw. unfold after_goto. open_state s. run_method.
  rewrite Hw. now rewrite <- !app_assoc.
Qed.

End Attempt.

(** ** Runs of the retry recursion *)

Section RetryRuns.

Variable eng : Engine.
Variable config : Config.
Variable url : string.

Lemma get_properties_only_emits (r : Z) (s : St) :
  exists o evs,
    get_properties eng config url r s =
      (o, {| self := self s; trace := trace s ++ evs |}) /\
    forallb (is_fetch_event config) evs = true.
Proof. apply get_properties_fuel_only_emits. Qed.

(** Every retry delay of a history of fetch events is the configured one. *)
Lemma configured_delays (evs : history) :
  forallb (is_fetch_event config) evs = true ->
  forall ev, In ev evs -> is_retry_delay ev = true ->
    ev = ESleep (MillisAsSeconds (retry_delay (scraping config))).
Proof.
  intros H ev Hin Hd. rewrite forallb_forall in H. specialize (H ev Hin).
  destruct ev; try discriminate. destruct d; try discriminate.
  cbn in H. apply Z.eqb_eq in H. now subst.
Qed.

(** A page on which every attempt fails: the call at counter [r] makes one
    attempt per remaining counter value and sleeps between them. *)
Lemma always_failing_run (p : handle) :
  forall (n : nat) (r : Z) (s : St),
    Z.of_nat n = max_retries (scraping config) - r ->
    _page (self s) = Some p ->
    (forall s', self s' = self s ->
       exists e, fst (attempt eng config url s') = Raised e) ->
    exists e evs,
      get_properties eng config url r s =
        (Raised e, {| self := self s; trace := trace s ++ evs |}) /\
      count is_goto evs = S n /\ count is_retry_delay evs = n.
Proof.
  induction n as [|n IH]; intros r s Hn Hp Hfail.
  - destruct (attempt_counts eng config url s p Hp) as (o & evs & E & _ & Hg & Hd).
    destruct (Hfail s eq_refl) as [e He]. rewrite E in He. cbn in He. subst o.
    exists e, (evs ++ [ELog ERROR ("Error fetching properties from " ++ url ++ ": "
                                    ++ str_of_exn e)%string]).
    rewrite (get_properties_give_up eng config url r s _ p e Hp E) by lia.
    unfold after_give_up. cbn [self trace]. rewrite <- app_assoc, !count_app, Hg, Hd.
    repeat split.
  - destruct (attempt_counts eng config url s p Hp) as (o & evs & E & _ & Hg & Hd).
    destruct (Hfail s eq_refl) as [e He]. rewrite E in He. cbn in He. subst o.
    rewrite (get_properties_retry eng config url r s _ p _ Hp E) by lia.
    destruct (IH (r + 1) (before_retry config url r e
                            {| self := self s; trace := trace s ++ evs |}))
      as (e' & evs' & E' & Hg' & Hd'); [lia | exact Hp | exact Hfail |].
    rewrite E'. unfold before_retry. cbn [self trace].
    exists e', (evs ++ retry_events config url r e ++ evs').
    rewrite <- !app_assoc. split; [reflexivity|].
    rewrite !count_app, Hg, Hd, Hg', Hd'. split; reflexivity.
Qed.

(** A page whose navigation fails [k] times and whose next attempt
    succeeds: the call returns after [k] retry delays. *)
Lemma failing_then_success (p : handle) (e0 : exn) :
  forall (k : nat) (r : Z) (s : St),
    r + Z.of_nat k <= max_retries (scraping config) ->
    _page (self s) = Some p ->
    (forall h, (count is_goto h < count is_goto (trace s) + k)%nat ->
               goto eng h p url None = Fail e0) ->
    (forall s', self s' = self s ->
                count is_goto (trace s') = (count is_goto (trace s) + k)%nat ->
                exists v, fst (attempt eng config url s') = Returned v) ->
    exists v evs,
      get_properties eng config url r s =
        (Returned v, {| self := self s; trace := trace s ++ evs |}) /\
      count is_goto evs = S k /\ count is_retry_delay evs = k.
Proof.
  induction k as [|k IH]; intros r s Hk Hp Hfail Hsucc.
  - destruct (attempt_counts eng config url s p Hp) as (o & evs & E & _ & Hg & Hd).
    destruct (Hsucc s eq_refl) as [v Hv]; [lia|]. rewrite E in Hv. cbn in Hv. subst o.
    exists v, evs. rewrite (get_properties_success eng config url r s _ p v Hp E). auto.
  - assert (Hg : goto eng (trace s ++ [navigating url]) p url None = Fail e0).
    { apply Hfail. rewrite count_app.
      change (count is_goto [navigating url]) with 0%nat. lia. }
    pose proof (attempt_goto_failure eng config url s p e0 Hp Hg) as E.
    rewrite (get_properties_retry eng config url r s _ p _ Hp E) by lia.
    destruct (IH (r + 1) (before_retry config url r e0
                {| self := self s;
                   trace := trace s ++ [navigating url; EGoto p url None] |}))
      as (v & evs' & E' & Hg' & Hd').
    + lia.
    + exact Hp.
    + intros h Hh. apply Hfail. revert Hh. unfold before_retry. cbn [self trace].
      rewrite !count_app. change (count is_goto (retry_events config url r e0)) with 0%nat.
      change (count is_goto [navigating url; EGoto p url None]) with 1%nat. lia.
    + intros s' Hs' Hc. apply Hsucc; [exact Hs'|]. rewrite Hc.
      unfold before_retry. cbn [self trace]. rewrite !count_app.
      change (count is_goto (retry_events config url r e0)) with 0%nat.
      change (count is_goto [navigating url; EGoto p url None]) with 1%nat. lia.
    + rewrite E'. unfold before_retry. cbn [self trace].
      exists v, ([navigating url; EGoto p url None]
                   ++ retry_events config url r e0 ++ evs').
      rewrite <- !app_assoc. split; [reflexivity|].
      rewrite !count_app, Hg', Hd'. split; reflexivity.
Qed.

End RetryRuns.

(** * The claims *)

Lemma connected_reachable (retries : Z) :
  exists h, connect Mock.cooperative (Mock.cfg retries) fresh
            = (Returned tt, {| self := self Mock.connected; trace := h |}).
Proof. eexists. reflexivity. Qed.

(** ** C1: fetching without a page *)

(** C1, the claim as stated fails for [get_page_content]: on a manager that
    was never connected it raises nothing and returns [None]. *)
Lemma C1_get_page_content_unguarded :
  _page (self fresh) = None /\
  fst (get_page_content Mock.cooperative (Mock.cfg 2) Mock.url fresh) = Returned None /\
  forall e, fst (get_page_content Mock.cooperative (Mock.cfg 2) Mock.url fresh) <> Raised e.
Proof. repeat split. intros e. cbv. discriminate. Qed.

(** C1, amended: while the page handle is absent (as on a new manager),
    [get_properties] raises the [RuntimeError] that names [connect()], at any
    retry counter and without touching the engine; [get_page_content] in the
    same state raises nothing: the [AttributeError] of the missing page is
    logged and [None] is returned. *)
Theorem C1_fetch_without_page (eng : Engine) (config : Config) (url : string)
        (retry_count : Z) (s : St) :
  _page (self s) = None ->
  get_properties eng config url retry_count s =
    (Raised (RuntimeError "Browser not initialized. Call connect() first."), s) /\
  get_page_content eng config url s =
    (Returned None,
     {| self := self s;
        trace := trace s ++
          [ELog ERROR
             "Failed to get page content: 'NoneType' object has no attribute 'goto'"] |}).
Proof.
  intros Hp. open_state s. split.
  - unfold get_properties. destruct (Z.to_nat _); reflexivity.
  - reflexivity.
Qed.

Lemma C1_fetch_without_page_witness :
  get_properties Mock.cooperative (Mock.cfg 2) Mock.url 0 fresh =
    (Raised (RuntimeError "Browser not initialized. Call connect() first."), fresh) /\
  get_page_content Mock.cooperative (Mock.cfg 2) Mock.url fresh =
    (Returned None,
     {| self := init;
        trace := [ELog ERROR
             "Failed to get page content: 'NoneType' object has no attribute 'goto'"] |}).
Proof.
  apply (C1_fetch_without_page Mock.cooperative (Mock.cfg 2) Mock.url 0 fresh).
  reflexivity.
Defined.

(** ** C2: the list container does not show *)

(** C2, the code at the failing input: a Ready session, [max_retries = 2], a
    page whose navigation goes through and whose list container never shows,
    so that the wait ends in the engine's timeout error.  The claim calls for
    the empty list without retry, and lines 129-131 of the source are written
    for it; but the timeout is an exception, not a [None], so the handler
    takes it: the call sleeps two retry delays and raises the timeout
    error. *)
Lemma C2_wait_timeout_raises :
  fst (get_properties Mock.no_list (Mock.cfg 2) Mock.url 0 Mock.connected)
    = Raised (PlaywrightTimeoutError "Timeout 10000ms exceeded.") /\
  count is_retry_delay
    (trace (snd (get_properties Mock.no_list (Mock.cfg 2) Mock.url 0 Mock.connected)))
    = 2%nat.
Proof. split; vm_compute; reflexivity. Qed.

(** The two ways the wait for the list container can end after a successful
    navigation.  When it hands back no element ([None]), [get_properties]
    returns the empty list at once, with the warning of line 130 and without
    retry.  When it raises, the attempt has failed: the error is raised if the
    counter has reached [max_retries], and otherwise the call goes on as the
    call with the next counter after the retry delay. *)
Lemma list_selector_outcomes (eng : Engine) (config : Config) (url : string)
        (r : Z) (s : St) (p : handle) :
  _page (self s) = Some p ->
  goto eng (trace s ++ [navigating url]) p url None = Done tt ->
  (wait_for_selector eng
     (trace s ++ [navigating url; EGoto p url None; ESleep (Seconds 5)]) p
     (property_list (selectors config)) (default_timeout (browser config)) = Done None ->
   get_properties eng config url r s =
     (Returned [],
      {| self := self s;
         trace := trace s ++
           [navigating url; EGoto p url None; ESleep (Seconds 5);
            EWaitForSelector p (property_list (selectors config))
              (default_timeout (browser config));
            ELog WARNING "Property list selector not found"] |})) /\
  (forall e,
     wait_for_selector eng
       (trace s ++ [navigating url; EGoto p url None; ESleep (Seconds 5)]) p
       (property_list (selectors config)) (default_timeout (browser config)) = Fail e ->
     (max_retries (scraping config) <= r ->
      fst (get_properties eng config url r s) = Raised e) /\
     (r < max_retries (scraping config) ->
      get_properties eng config url r s =
        get_properties eng config url (r + 1)
          (before_retry config url r e
             {| self := self s;
                trace := trace s ++
                  [navigating url; EGoto p url None; ESleep (Seconds 5);
                   EWaitForSelector p (property_list (selectors config))
                     (default_timeout (browser config))] |}))).
Proof.
  intros Hp Hg.
  pose proof (attempt_goto_success eng config url s p Hp Hg) as Ha.
  set (s1 := {| self := self s; trace := trace s ++ [navigating url; EGoto p url None] |})
    in Ha.
  assert (Hh : trace s1 ++ [ESleep (Seconds 5)]
               = trace s ++ [navigating url; EGoto p url None; ESleep (Seconds 5)]).
  { unfold s1. cbn [trace]. now rewrite <- app_assoc. }
  split.
  - intros Hw. rewrite <- Hh in Hw.
    rewrite (after_goto_none eng config url s1 p Hp Hw) in Ha.
    unfold s1 in Ha. cbn [self trace] in Ha. rewrite <- app_assoc in Ha.
    exact (get_properties_success eng config url r s _ p _ Hp Ha).
  - intros e Hw. rewrite <- Hh in Hw.
    rewrite (after_goto_wait_failure eng config url s1 p e Hp Hw) in Ha.
    unfold s1 in Ha. cbn [self trace] in Ha. rewrite <- app_assoc in Ha.
    split; intros Hr.
    + now rewrite (get_properties_give_up eng config url r s _ p e Hp Ha Hr).
    + exact (get_properties_retry eng config url r s _ p e Hp Ha Hr).
Qed.

Lemma list_selector_outcomes_example :
  fst (get_properties Mock.null_list (Mock.cfg 2) Mock.url 0 Mock.connected) = Returned [] /\
  fst (get_properties Mock.no_list (Mock.cfg 0) Mock.url 0 Mock.connected)
    = Raised (PlaywrightTimeoutError "Timeout 10000ms exceeded.").
Proof.
  split.
  - rewrite (proj1 (list_selector_outcomes Mock.null_list (Mock.cfg 2) Mock.url 0
                      Mock.connected 4%nat eq_refl eq_refl) eq_refl).
    reflexivity.
  - apply (proj2 (list_selector_outcomes Mock.no_list (Mock.cfg 0) Mock.url 0
                    Mock.connected 4%nat eq_refl eq_refl)
             (PlaywrightTimeoutError "Timeout 10000ms exceeded.") eq_refl).
    cbn. lia.
Defined.

(** ** C3: the retry policy *)

(** The events of one run are determined by the run. *)
Lemma run_events_unique {A} (m : M A) (s : St) (o o' : outcome A) (evs evs' : history) :
  m s = (o, {| self := self s; trace := trace s ++ evs |}) ->
  m s = (o', {| self := self s; trace := trace s ++ evs' |}) ->
  evs = evs'.
Proof.
  intros H H'. rewrite H in H'. injection H' as _ H'. now apply app_inv_head in H'.
Qed.

(** C3: when an attempt of [get_properties] on a page raises and the counter
    is below [max_retries], the call logs, sleeps the configured retry delay
    and goes on as the call with the next counter; when the counter has
    reached [max_retries] the error is raised.  On a page on which every
    attempt fails, the call with counter 0 raises after exactly
    [max_retries + 1] navigations and [max_retries] retry delays; with
    [max_retries = 2], on a page whose navigation fails twice and whose third
    attempt succeeds, the call returns after exactly 2 retry delays.  Every
    retry delay is the configured one. *)
Theorem C3_retry_policy (eng : Engine) (config : Config) (url : string)
        (s : St) (p : handle) :
  _page (self s) = Some p ->
  (forall r e s1,
     attempt eng config url s = (Raised e, s1) ->
     (r < max_retries (scraping config) ->
      get_properties eng config url r s =
        get_properties eng config url (r + 1) (before_retry config url r e s1)) /\
     (max_retries (scraping config) <= r ->
      get_properties eng config url r s = (Raised e, after_give_up url e s1))) /\
  (0 <= max_retries (scraping config) ->
   (forall s', self s' = self s ->
      exists e, fst (attempt eng config url s') = Raised e) ->
   exists e evs,
     get_properties eng config url 0 s =
       (Raised e, {| self := self s; trace := trace s ++ evs |}) /\
     Z.of_nat (count is_goto evs) = max_retries (scraping config) + 1 /\
     Z.of_nat (count is_retry_delay evs) = max_retries (scraping config) /\
     (forall ev, In ev evs -> is_retry_delay ev = true ->
        ev = ESleep (MillisAsSeconds (retry_delay (scraping config))))) /\
  (max_retries (scraping config) = 2 ->
   forall e0,
   (forall h, (count is_goto h < count is_goto (trace s) + 2)%nat ->
              goto eng h p url None = Fail e0) ->
   (forall s', self s' = self s ->
               count is_goto (trace s') = (count is_goto (trace s) + 2)%nat ->
               exists v, fst (attempt eng config url s') = Returned v) ->
   exists v evs,
     get_properties eng config url 0 s =
       (Returned v, {| self := self s; trace := trace s ++ evs |}) /\
     count is_goto evs = 3%nat /\
     count is_retry_delay evs = 2%nat /\
     (forall ev, In ev evs -> is_retry_delay ev = true ->
        ev = ESleep (MillisAsSeconds (retry_delay (scraping config))))).
Proof.
  intros Hp. split; [|split].
  - intros r e s1 Ha. split; intros Hr.
    + exact (get_properties_retry eng config url r s s1 p e Hp Ha Hr).
    + exact (get_properties_give_up eng config url r s s1 p e Hp Ha Hr).
  - intros Hmax Hfail.
    destruct (always_failing_run eng config url p
                (Z.to_nat (max_retries (scraping config))) 0 s)
      as (e & evs & E & Hg & Hd); [lia | exact Hp | exact Hfail |].
    exists e, evs. repeat split; [exact E | lia | lia |].
    destruct (get_properties_only_emits eng config url 0 s) as (o & evs' & E' & HP).
    rewrite <- (run_events_unique _ _ _ _ _ _ E E') in HP.
    now apply configured_delays.
  - intros Hmax e0 Hfail Hsucc.
    destruct (failing_then_success eng config url p e0 2 0 s)
      as (v & evs & E & Hg & Hd); [cbn; lia | exact Hp | exact Hfail | exact Hsucc |].
    exists v, evs. repeat split; [exact E | exact Hg | exact Hd |].
    destruct (get_properties_only_emits eng config url 0 s) as (o & evs' & E' & HP).
    rewrite <- (run_events_unique _ _ _ _ _ _ E E') in HP.
    now apply configured_delays.
Qed.

Lemma C3_retry_policy_witness :
  (exists e evs,
     get_properties Mock.unreachable (Mock.cfg 2) Mock.url 0 Mock.connected =
       (Raised e, {| self := self Mock.connected; trace := evs |}) /\
     count is_goto evs = 3%nat /\ count is_retry_delay evs = 2%nat) /\
  (exists v evs,
     get_properties (Mock.flaky 2) (Mock.cfg 2) Mock.url 0 Mock.connected =
       (Returned v, {| self := self Mock.connected; trace := evs |}) /\
     count is_goto evs = 3%nat /\ count is_retry_delay evs = 2%nat).
Proof.
  split.
  - destruct (C3_retry_policy Mock.unreachable (Mock.cfg 2) Mock.url Mock.connected
                4%nat eq_refl) as (_ & H & _).
    destruct H as (e & evs & E & Hg & Hd & _).
    + cbn. lia.
    + intros [bm tr] Hs. cbn in Hs. subst bm.
      exists (PlaywrightTimeoutError "Timeout 30000ms exceeded."). reflexivity.
    + exists e, evs. cbn in Hg, Hd. repeat split; [exact E | lia | lia].
  - destruct (C3_retry_policy (Mock.flaky 2) (Mock.cfg 2) Mock.url Mock.connected
                4%nat eq_refl) as (_ & _ & H).
    destruct (H eq_refl (PlaywrightError "net::ERR_CONNECTION_RESET"))
      as (v & evs & E & Hg & Hd & _).
    + intros h Hh. change (count is_goto h < 2)%nat in Hh. apply Nat.ltb_lt in Hh.
      unfold Mock.flaky, Mock.with_goto. cbn [goto]. now rewrite Hh.
    + intros [bm tr] Hs Hc. change (count is_goto tr = 2%nat) in Hc.
      cbn [self] in Hs. subst bm.
      assert (Hg : goto (Mock.flaky 2) (tr ++ [navigating Mock.url]) 4%nat Mock.url None
                   = Done tt).
      { unfold Mock.flaky, Mock.with_goto. cbn [goto].
        rewrite count_app, Hc. reflexivity. }
      rewrite (attempt_goto_success (Mock.flaky 2) (Mock.cfg 2) Mock.url
                 {| self := self Mock.connected; trace := tr |} 4%nat eq_refl Hg).
      rewrite (after_goto_items (Mock.flaky 2) (Mock.cfg 2) Mock.url _ 4%nat 5%nat
                 [10%nat; 11%nat; 12%nat] Mock.item_html); try reflexivity.
      eexists. reflexivity.
    + exists v, evs. repeat split; assumption.
Defined.

(** ** C4: the fragments of a page *)

Section Fragments.

Variable eng : Engine.
Variable config : Config.
Variable url : string.
Variables (p pl : handle) (els : list handle) (html_of : handle -> option string).

Hypothesis list_shows :
  forall h, wait_for_selector eng h p (property_list (selectors config))
              (default_timeout (browser config)) = Done (Some pl).
Hypothesis items :
  forall h, query_selector_all eng h p (property_item (selectors config)) = Done els.
Hypothesis markup :
  forall h el, In el els -> inner_html eng h el = Done (html_of el).

Lemma attempt_items (s : St) :
  _page (self s) = Some p ->
  goto eng (trace s ++ [navigating url]) p url None = Done tt ->
  attempt eng config url s =
    (Returned (kept (map html_of els)),
     {| self := self s;
        trace := trace s ++ attempt_events config url p els html_of |}).
Proof.
  intros Hp Hg. rewrite (attempt_goto_success eng config url s p Hp Hg).
  rewrite (after_goto_items eng config url
             {| self := self s; trace := trace s ++ [navigating url; EGoto p url None] |}
             p pl els html_of Hp list_shows items markup).
  cbn [self trace]. unfold attempt_events. now rewrite <- app_assoc.
Qed.

Lemma attempt_items_outcome (s : St) :
  _page (self s) = Some p ->
  (exists e s1, attempt eng config url s = (Raised e, s1) /\ self s1 = self s) \/
  (exists s1, attempt eng config url s = (Returned (kept (map html_of els)), s1)).
Proof.
  intros Hp. destruct (goto eng (trace s ++ [navigating url]) p url None) as [[]|e] eqn:Hg.
  - right. rewrite (attempt_items s Hp Hg). eauto.
  - left. rewrite (attempt_goto_failure eng config url s p e Hp Hg). eauto.
Qed.

Lemma get_properties_fuel_items :
  forall fuel r s frags s',
    _page (self s) = Some p ->
    get_properties_fuel eng config fuel url r s = (Returned frags, s') ->
    frags = kept (map html_of els).
Proof.
  induction fuel as [|fuel IH]; intros r s frags s' Hp;
    cbn [get_properties_fuel]; unfold bind at 1, get_self; rewrite Hp;
    unfold try_except;
    (destruct (attempt_items_outcome s Hp) as [(e & s1 & -> & Hs1)|(s1 & ->)];
     [|intros H; injection H as <- _; reflexivity]);
    unfold bind at 1, log, emit;
    destruct (Z.ltb_spec r (max_retries (scraping config))).
  - unfold bind, sleep, emit. discriminate.
  - discriminate.
  - unfold bind at 1 2, sleep, emit. apply IH. cbn [self]. congruence.
  - discriminate.
Qed.

End Fragments.

(** C4: on a page whose list container shows, whose item selector matches
    the [N] elements [els] and whose elements hand over the markup
    [html_of], every successful call of [get_properties] returns exactly the
    non-empty markups, in the order of the elements: [K] strings, for [K] the
    number of elements with non-empty markup; empty and absent markup is
    left out.  The call is successful as soon as a navigation goes
    through. *)
Theorem C4_fragments (eng : Engine) (config : Config) (url : string) (r : Z) (s : St)
        (p pl : handle) (els : list handle) (html_of : handle -> option string) :
  _page (self s) = Some p ->
  (forall h, wait_for_selector eng h p (property_list (selectors config))
               (default_timeout (browser config)) = Done (Some pl)) ->
  (forall h, query_selector_all eng h p (property_item (selectors config)) = Done els) ->
  (forall h el, In el els -> inner_html eng h el = Done (html_of el)) ->
  (forall frags s',
     get_properties eng config url r s = (Returned frags, s') ->
     map Some frags = filter truthy (map html_of els) /\
     List.length frags = List.length (filter truthy (map html_of els))) /\
  (goto eng (trace s ++ [navigating url]) p url None = Done tt ->
   exists frags,
     get_properties eng config url r s =
       (Returned frags,
        {| self := self s;
           trace := trace s ++ attempt_events config url p els html_of |}) /\
     map Some frags = filter truthy (map html_of els)).
Proof.
  intros Hp Hw Hq Hi. split.
  - intros frags s' H.
    apply (get_properties_fuel_items eng config url p pl els html_of Hw Hq Hi) in H;
      [|exact Hp].
    subst frags. split; [apply kept_filter | apply kept_length].
  - intros Hg. exists (kept (map html_of els)). split; [|apply kept_filter].
    apply (get_properties_success eng config url r s _ p _ Hp).
    exact (attempt_items eng config url p pl els html_of Hw Hq Hi s Hp Hg).
Qed.

Lemma C4_fragments_witness :
  exists s',
    get_properties Mock.cooperative (Mock.cfg 2) Mock.url 0 Mock.connected =
      (Returned ["<h2>Flat</h2>"; "<h2>House</h2>"], s') /\
    filter truthy (map Mock.item_html [10%nat; 11%nat; 12%nat])
      = [Some "<h2>Flat</h2>"; Some "<h2>House</h2>"].
Proof.
  destruct (C4_fragments Mock.cooperative (Mock.cfg 2) Mock.url 0 Mock.connected
              4%nat 5%nat [10%nat; 11%nat; 12%nat] Mock.item_html eq_refl
              (fun _ => eq_refl) (fun _ => eq_refl) (fun _ _ _ => eq_refl))
    as [_ H].
  destruct (H eq_refl) as (frags & E & Hf).
  eexists. split; [|reflexivity].
  rewrite E. f_equal. f_equal. apply map_Some_inj. exact Hf.
Defined.

(** ** C5: the order and the outcome of the teardown *)

(** C5, the claim as stated fails: on an engine that cannot close the page,
    [close] after a successful [connect] stops at the first release call;
    context, browser and engine are never released and no handle is
    cleared. *)
Lemma C5_failed_release_stops_teardown :
  fst ((connect Mock.stuck_page (Mock.cfg 2) ;; close Mock.stuck_page) fresh)
    = Returned tt /\
  self (snd ((connect Mock.stuck_page (Mock.cfg 2) ;; close Mock.stuck_page) fresh))
    = {| _playwright := Some 1%nat; _browser := Some 2%nat;
         _page := Some 4%nat; _context := Some 3%nat |} /\
  filter is_release
    (trace (snd ((connect Mock.stuck_page (Mock.cfg 2) ;; close Mock.stuck_page) fresh)))
    = [EPageClose 4%nat].
Proof. repeat split; vm_compute; reflexivity. Qed.

Section FirstFailure.

Variable eng : Engine.

Lemma all_released_app (d : history) :
  forall h x r,
    all_released eng h (d ++ x :: r) = true ->
    all_released eng h d = true /\
    went_through (release_reply eng (h ++ d) x) = true.
Proof.
  induction d as [|a d IH]; intros h x r; cbn [all_released app].
  - rewrite app_nil_r. intros [H _]%andb_prop. now split.
  - intros [Ha H]%andb_prop. destruct (IH _ _ _ H) as [H1 H2].
    rewrite Ha, H1. split; [reflexivity|]. now rewrite <- app_assoc in H2.
Qed.

(** The first release call that raises is determined by the engine. *)
Lemma first_failure_unique (d1 : history) :
  forall h d2 x1 x2 r1 r2 e1 e2,
    d1 ++ x1 :: r1 = d2 ++ x2 :: r2 ->
    all_released eng h d1 = true ->
    all_released eng h d2 = true ->
    release_reply eng (h ++ d1) x1 = Fail e1 ->
    release_reply eng (h ++ d2) x2 = Fail e2 ->
    d1 = d2 /\ x1 = x2 /\ r1 = r2 /\ e1 = e2.
Proof.
  induction d1 as [|a d1 IH]; intros h [|b d2] x1 x2 r1 r2 e1 e2;
    cbn [app all_released]; intros E H1 H2 F1 F2.
  - injection E as <- <-. rewrite F1 in F2. injection F2 as <-. auto.
  - injection E as <- _. apply andb_prop in H2 as [H2 _].
    rewrite app_nil_r in F1. rewrite F1 in H2. discriminate.
  - injection E as <- _. apply andb_prop in H1 as [H1 _].
    rewrite app_nil_r in F2. rewrite F2 in H1. discriminate.
  - injection E as <- E. apply andb_prop in H1 as [_ H1]. apply andb_prop in H2 as [_ H2].
    replace (h ++ a :: d1) with ((h ++ [a]) ++ d1) in F1 by now rewrite <- app_assoc.
    replace (h ++ a :: d2) with ((h ++ [a]) ++ d2) in F2 by now rewrite <- app_assoc.
    destruct (IH _ _ _ _ _ _ _ _ E H1 H2 F1 F2) as (-> & -> & -> & ->). auto.
Qed.

(** One release step of [close_body]: the answer of the engine is named. *)
Ltac named_release f :=
  match goal with
  | |- context [match f eng ?h ?x with Done _ => _ | Fail _ => _ end] =>
      let E := fresh "E" in
      destruct (f eng h x) as [[]|?e] eqn:E; run_method
  end.

(** The events appended to [tr] in a trace built one event at a time. *)
Ltac appended t :=
  lazymatch t with
  | ?t' ++ [?ev] => let l := appended t' in constr:(l ++ [ev])
  | _ => constr:(@nil Event)
  end.

Ltac use_answers :=
  cbn [all_released release_reply release_events opt_event app
       _page _context _browser _playwright];
  repeat match goal with
         | H : _ = Done tt |- _ => rewrite H; clear H
         end;
  reflexivity.

(** The run went through every release call. *)
Ltac all_through :=
  left; split; [use_answers | unfold init; cbn [app]; rewrite <- ?app_assoc; reflexivity].

(** The run ended in the handler of [close]: the calls before the failed
    one went through. *)
Ltac stopped_at_failure :=
  right;
  match goal with
  | H : _ = Fail ?e |- context [{| self := ?bm; trace := ?t |}] =>
      let l := appended t in
      let l := eval cbn [app] in l in
      let d := eval cbv [removelast] in (removelast (removelast l)) in
      let x := eval cbv [removelast last] in (last (removelast l) EStart) in
      exists d, x, (tl (release_events bm)), e, bm;
      split; [reflexivity|]; split; [reflexivity|];
      split; [use_answers|];
      split;
      [ cbn [release_reply]; rewrite <- ?app_assoc in H; cbn [app] in H;
        rewrite ?app_nil_r; exact H
      | rewrite <- ?app_assoc; cbn [app]; reflexivity ]
  end.

(** [close] goes through every release call when each of them returns, and
    otherwise stops at the first one that raises. *)
Lemma close_first_failure (s : St) :
  (all_released eng (trace s) (release_events (self s)) = true /\
   close eng s =
     (Returned tt,
      {| self := init;
         trace := trace s ++ release_events (self s)
                    ++ [ELog INFO "Browser resources cleaned up"] |})) \/
  (exists done x rest e bm',
     release_events (self s) = done ++ x :: rest /\
     release_events bm' = x :: rest /\
     all_released eng (trace s) done = true /\
     release_reply eng (trace s ++ done) x = Fail e /\
     close eng s =
       (Returned tt,
        {| self := bm';
           trace := trace s ++ done ++
             [x; ELog ERROR ("Error during cleanup: " ++ str_of_exn e)%string] |})).
Proof.
  destruct s as [[pw b p c] tr]. unfold close, close_body.
  cbn [self trace].
  destruct p as [p|]; run_method; [named_release page_close; [|stopped_at_failure]|];
    (destruct c as [c|]; run_method;
     [named_release context_close; [|stopped_at_failure]|];
     (destruct b as [b|]; run_method;
      [named_release browser_close; [|stopped_at_failure]|];
      (destruct pw as [pw|]; run_method;
       [named_release pw_stop; [|stopped_at_failure]|];
       all_through))).
Qed.

(** A release call that raises after the earlier ones went through ends the
    teardown. *)
Lemma close_stops_at_failure (s : St) (done : history) (x : Event) (rest : history)
      (e : exn) :
  release_events (self s) = done ++ x :: rest ->
  all_released eng (trace s) done = true ->
  release_reply eng (trace s ++ done) x = Fail e ->
  exists bm',
    release_events bm' = x :: rest /\
    close eng s =
      (Returned tt,
       {| self := bm';
          trace := trace s ++ done ++
            [x; ELog ERROR ("Error during cleanup: " ++ str_of_exn e)%string] |}).
Proof.
  intros Hd Hall Hx.
  destruct (close_first_failure s)
    as [[Ha _]|(d' & x' & r' & e' & bm' & Hd' & Hb & Hall' & Hx' & H)].
  - rewrite Hd in Ha. apply all_released_app in Ha as [_ Ha].
    rewrite Hx in Ha. discriminate.
  - rewrite Hd in Hd'.
    destruct (first_failure_unique _ _ _ _ _ _ _ _ _ Hd' Hall Hall' Hx Hx')
      as (-> & -> & -> & ->).
    exists bm'. now split.
Qed.

End FirstFailure.

(** C5, amended: [close] releases the page, then the context, then the
    browser, then stops the engine, in that order and skipping absent
    handles, and clears each handle after its release call.  Either all
    release calls go through, and then the four handles are [None]; or the
    first release call [x] that raises ends the teardown: the error is logged,
    nothing is raised, the handles released before [x] are cleared, and the
    handle of [x] and the later handles stay set, their release calls not
    made.  So when no release call raises, all four handles are [None] after
    [close], also after the [close] inside a failed [connect]. *)
Theorem C5_teardown (eng : Engine) (config : Config) (s : St) :
  ((all_released eng (trace s) (release_events (self s)) = true /\
    close eng s =
      (Returned tt,
       {| self := init;
          trace := trace s ++ release_events (self s)
                     ++ [ELog INFO "Browser resources cleaned up"] |})) \/
   (exists done x rest e bm',
      release_events (self s) = done ++ x :: rest /\
      release_events bm' = x :: rest /\
      all_released eng (trace s) done = true /\
      release_reply eng (trace s ++ done) x = Fail e /\
      close eng s =
        (Returned tt,
         {| self := bm';
            trace := trace s ++ done ++
              [x; ELog ERROR ("Error during cleanup: " ++ str_of_exn e)%string] |}))) /\
  (forall done x rest e,
     release_events (self s) = done ++ x :: rest ->
     all_released eng (trace s) done = true ->
     release_reply eng (trace s ++ done) x = Fail e ->
     exists bm',
       release_events bm' = x :: rest /\
       close eng s =
         (Returned tt,
          {| self := bm';
             trace := trace s ++ done ++
               [x; ELog ERROR ("Error during cleanup: " ++ str_of_exn e)%string] |})) /\
  (reliable_release eng ->
   close eng s =
     (Returned tt,
      {| self := init;
         trace := trace s ++ release_events (self s)
                    ++ [ELog INFO "Browser resources cleaned up"] |}) /\
   (forall e s', connect eng config s = (Raised e, s') -> self s' = init)).
Proof.
  split; [|split].
  - apply close_first_failure.
  - apply close_stops_at_failure.
  - intros Hr. split.
    + now apply close_reliable.
    + intros e s'. now apply connect_failure_clears.
Qed.

Lemma C5_teardown_witness :
  close Mock.cooperative Mock.connected =
    (Returned tt,
     {| self := init;
        trace := [EPageClose 4%nat; EContextClose 3%nat; EBrowserClose 2%nat;
                  EStop 1%nat; ELog INFO "Browser resources cleaned up"] |}) /\
  (exists e, fst (connect Mock.no_browser (Mock.cfg 2) fresh) = Raised e) /\
  self (snd (connect Mock.no_browser (Mock.cfg 2) fresh)) = init /\
  (exists bm',
     release_events bm' = [EContextClose 3%nat; EBrowserClose 2%nat; EStop 1%nat] /\
     close Mock.stuck_context Mock.connected =
       (Returned tt,
        {| self := bm';
           trace := [EPageClose 4%nat; EContextClose 3%nat;
                     ELog ERROR "Error during cleanup: Target closed"] |})).
Proof.
  split; [|split; [|split]].
  - apply (proj1 (proj2 (proj2 (C5_teardown Mock.cooperative (Mock.cfg 2)
                                  Mock.connected))
                    ltac:(repeat split))).
  - eexists. reflexivity.
  - apply (proj2 (proj2 (proj2 (C5_teardown Mock.no_browser (Mock.cfg 2) fresh))
                    ltac:(repeat split))
             (PlaywrightError "Executable doesn't exist")).
    reflexivity.
  - apply (proj1 (proj2 (C5_teardown Mock.stuck_context (Mock.cfg 2) Mock.connected))
             [EPageClose 4%nat] (EContextClose 3%nat)
             [EBrowserClose 2%nat; EStop 1%nat] (PlaywrightError "Target closed"));
      reflexivity.
Defined.

(** ** C6: [close] never raises *)

(** C6: [close] returns normally from every state and on every engine, even
    when release calls raise; so does a second [close] right after it; on a
    manager without handles (never connected, or closed) it calls nothing and
    only logs. *)
Theorem C6_close_never_raises (eng : Engine) (s : St) :
  (exists s', close eng s = (Returned tt, s')) /\
  (exists s'', (close eng ;; close eng) s = (Returned tt, s'')) /\
  (cleared (self s) = true ->
   close eng s =
     (Returned tt,
      {| self := self s;
         trace := trace s ++ [ELog INFO "Browser resources cleaned up"] |})).
Proof.
  split; [|split].
  - apply close_returns.
  - destruct (close_returns eng s) as [s1 H1].
    destruct (close_returns eng s1) as [s2 H2].
    exists s2. unfold bind. now rewrite H1.
  - apply close_cleared.
Qed.

Lemma C6_close_never_raises_witness :
  close Mock.stuck_page fresh =
    (Returned tt, {| self := init; trace := [ELog INFO "Browser resources cleaned up"] |}) /\
  (exists s', (close Mock.stuck_page ;; close Mock.stuck_page) Mock.connected
              = (Returned tt, s')).
Proof.
  split.
  - apply (proj2 (proj2 (C6_close_never_raises Mock.stuck_page fresh))). reflexivity.
  - apply (proj1 (proj2 (C6_close_never_raises Mock.stuck_page Mock.connected))).
Defined.

(** ** C7: [get_page_content] is best effort *)

(** C7: [get_page_content] returns normally from every state and on every
    engine.  It navigates at most once and never sleeps a retry delay.  When
    navigation and capture go through, the captured content is returned as it
    is, whatever its length and whether or not it holds the marker; the
    sanity checks only add warnings to the log.  When the navigation or the
    capture raises, or the page handle is absent, the result is [None]. *)
Theorem C7_get_page_content (eng : Engine) (config : Config) (url : string) (s : St) :
  (exists r evs,
     get_page_content eng config url s =
       (Returned r, {| self := self s; trace := trace s ++ evs |}) /\
     (count is_goto evs <= 1)%nat /\ count is_retry_delay evs = 0%nat) /\
  (forall p c,
     _page (self s) = Some p ->
     goto eng (trace s) p url (Some (navigation_timeout (browser config))) = Done tt ->
     content eng
       (trace s ++ [EGoto p url (Some (navigation_timeout (browser config)));
                    ESleep (Seconds 5)]) p = Done c ->
     get_page_content eng config url s =
       (Returned (Some c),
        {| self := self s;
           trace := trace s ++
             [EGoto p url (Some (navigation_timeout (browser config)));
              ESleep (Seconds 5); EContent p;
              ELog DEBUG ("Fetched content length: " ++ str_of_int (len c))%string]
             ++ content_warnings c |})) /\
  (forall p e,
     _page (self s) = Some p ->
     goto eng (trace s) p url (Some (navigation_timeout (browser config))) = Fail e ->
     fst (get_page_content eng config url s) = Returned None) /\
  (forall p e,
     _page (self s) = Some p ->
     goto eng (trace s) p url (Some (navigation_timeout (browser config))) = Done tt ->
     content eng
       (trace s ++ [EGoto p url (Some (navigation_timeout (browser config)));
                    ESleep (Seconds 5)]) p = Fail e ->
     fst (get_page_content eng config url s) = Returned None) /\
  (_page (self s) = None ->
   fst (get_page_content eng config url s) = Returned None).
Proof.
  split; [|split; [|split; [|split]]].
  - destruct s as [[pw b [p|] cx] tr]; unfold get_page_content; run_method.
    + destruct (goto eng _ p url _) as [[]|e]; run_method.
      * destruct (content eng _ p) as [c|e]; run_method.
        -- destruct (len c <? 1000); [|destruct (negb _)]; run_method;
             rewrite <- ?app_assoc; cbn [app];
             eexists _, _; (split; [reflexivity|]);
             unfold count; cbn [filter is_goto is_retry_delay List.length]; lia.
        -- rewrite <- ?app_assoc; cbn [app].
           eexists _, _; (split; [reflexivity|]).
           unfold count; cbn [filter is_goto is_retry_delay List.length]; lia.
      * rewrite <- ?app_assoc; cbn [app].
        eexists _, _; (split; [reflexivity|]).
        unfold count; cbn [filter is_goto is_retry_delay List.length]; lia.
    + eexists _, _; (split; [reflexivity|]).
      unfold count; cbn [filter is_goto is_retry_delay List.length]; lia.
  - intros p c Hp Hg Hc. open_state s. unfold get_page_content. run_method.
    rewrite Hg. run_method. rewrite <- app_assoc. cbn [app]. rewrite Hc. run_method.
    unfold content_warnings.
    destruct (len c <? 1000); [|destruct (negb _)]; run_method;
      rewrite <- ?app_assoc; cbn [app]; rewrite ?app_nil_r; reflexivity.
  - intros p e Hp Hg. open_state s. unfold get_page_content. run_method.
    now rewrite Hg.
  - intros p e Hp Hg Hc. open_state s. unfold get_page_content. run_method.
    rewrite Hg. run_method. rewrite <- app_assoc. cbn [app]. now rewrite Hc.
  - intros Hp. open_state s. reflexivity.
Qed.

Lemma C7_get_page_content_witness :
  fst (get_page_content Mock.short_content (Mock.cfg 2) Mock.url Mock.connected)
    = Returned (Some (Mock.times "x"%char 500)) /\
  filter (fun ev => match ev with ELog WARNING _ => true | _ => false end)
    (trace (snd (get_page_content Mock.short_content (Mock.cfg 2) Mock.url Mock.connected)))
    = [ELog WARNING "Content seems too short, might be incomplete"] /\
  fst (get_page_content Mock.unreachable (Mock.cfg 2) Mock.url Mock.connected)
    = Returned None /\
  fst (get_page_content Mock.no_content (Mock.cfg 2) Mock.url Mock.connected)
    = Returned None /\
  fst (get_page_content Mock.cooperative (Mock.cfg 2) Mock.url fresh) = Returned None.
Proof.
  pose proof (proj1 (proj2 (C7_get_page_content Mock.short_content (Mock.cfg 2)
                              Mock.url Mock.connected))
                4%nat (Mock.times "x"%char 500) eq_refl eq_refl eq_refl) as H.
  split; [|split; [|split; [|split]]].
  - now rewrite H.
  - rewrite H. vm_compute. reflexivity.
  - apply (proj1 (proj2 (proj2 (C7_get_page_content Mock.unreachable (Mock.cfg 2)
                                  Mock.url Mock.connected)))
             4%nat (PlaywrightTimeoutError "Timeout 30000ms exceeded.")); reflexivity.
  - apply (proj1 (proj2 (proj2 (proj2 (C7_get_page_content Mock.no_content (Mock.cfg 2)
                                         Mock.url Mock.connected))))
             4%nat (PlaywrightError "Execution context was destroyed")); reflexivity.
  - apply (proj2 (proj2 (proj2 (proj2 (C7_get_page_content Mock.cooperative (Mock.cfg 2)
                                         Mock.url fresh))))).
    reflexivity.
Defined.

(** ** C10: the fetch operations assign no handle *)

Lemma only_emits_self {A} (P : Event -> bool) (m : M A) (s : St) :
  only_emits P m -> self (snd (m s)) = self s.
Proof. intros H. destruct (H s) as (o & evs & -> & _). reflexivity. Qed.

Lemma fetch_frame (eng : Engine) (config : Config) (url : string)
      (retry_count : Z) (s : St) :
  self (snd (get_properties eng config url retry_count s)) = self s /\
  self (snd (get_page_content eng config url s)) = self s.
Proof.
  split.
  - apply (only_emits_self (is_fetch_event config)).
    apply get_properties_fuel_only_emits.
  - apply (only_emits_self (is_fetch_event config)).
    apply get_page_content_only_emits.
Qed.

(** C10: after [get_properties] (at any retry counter) and after
    [get_page_content], whether the call returned or raised, the four handle
    attributes hold the values they held before the call. *)
Theorem C10_fetch_frame (eng : Engine) (config : Config) (url : string)
        (retry_count : Z) (s : St) :
  self (snd (get_properties eng config url retry_count s)) = self s /\
  self (snd (get_page_content eng config url s)) = self s.
Proof. apply fetch_frame. Qed.

(** ** C8: partial handle states *)

Lemma consistent_init : consistent init = true.
Proof. reflexivity. Qed.

(** C8, the claim as stated fails: on an engine that cannot close the
    context, [close] after a successful [connect] returns with the page handle
    cleared and the three other handles still set. *)
Lemma C8_partial_state_after_close :
  consistent (self (snd (connect Mock.stuck_context (Mock.cfg 2) fresh))) = true /\
  self (snd ((connect Mock.stuck_context (Mock.cfg 2) ;; close Mock.stuck_context) fresh))
    = {| _playwright := Some 1%nat; _browser := Some 2%nat;
         _page := None; _context := Some 3%nat |} /\
  consistent
    (self (snd ((connect Mock.stuck_context (Mock.cfg 2) ;; close Mock.stuck_context)
                  fresh))) = false.
Proof. repeat split; vm_compute; reflexivity. Qed.

(** C8, amended: as long as no release call of the engine raises, the four
    handles are all set or all [None] when [connect] returns or raises and
    when [close] returns, whatever the state before the call; the two fetch
    operations hand back the handle state they found, so from a state
    without partial handles they return or raise in such a state. *)
Theorem C8_no_partial_state (eng : Engine) (config : Config) (url : string)
        (retry_count : Z) (s : St) :
  reliable_release eng ->
  consistent (self (snd (connect eng config s))) = true /\
  consistent (self (snd (close eng s))) = true /\
  (consistent (self s) = true ->
   consistent (self (snd (get_properties eng config url retry_count s))) = true /\
   consistent (self (snd (get_page_content eng config url s))) = true).
Proof.
  intros Hr. split; [|split].
  - destruct (connect_outcome eng config s) as [(s' & H & Hb)|(e & s1 & s' & H & _ & _)].
    + rewrite H. cbn [snd]. unfold consistent.
      now rewrite (connect_body_success eng config s s' Hb).
    + rewrite H. cbn [snd].
      now rewrite (connect_failure_clears eng config s s' e Hr H).
  - now rewrite (close_reliable eng s Hr).
  - intros Hc. destruct (fetch_frame eng config url retry_count s) as [-> ->].
    now split.
Qed.

Lemma C8_no_partial_state_witness :
  consistent (self (snd (connect Mock.no_browser (Mock.cfg 2) fresh))) = true /\
  consistent (self (snd (close Mock.cooperative Mock.connected))) = true /\
  consistent
    (self (snd (get_properties Mock.unreachable (Mock.cfg 2) Mock.url 0 Mock.connected)))
    = true.
Proof.
  split; [|split].
  - apply (proj1 (C8_no_partial_state Mock.no_browser (Mock.cfg 2) Mock.url 0 fresh
                    ltac:(repeat split))).
  - apply (proj1 (proj2 (C8_no_partial_state Mock.cooperative (Mock.cfg 2) Mock.url 0
                           Mock.connected ltac:(repeat split)))).
  - apply (proj1 (proj2 (proj2 (C8_no_partial_state Mock.unreachable (Mock.cfg 2)
                                  Mock.url 0 Mock.connected ltac:(repeat split)))
                    eq_refl)).
Defined.

(** ** C9: a closed manager *)

(** C9, the claim as stated fails: the same manager, connected, closed and
    connected again, is Ready and fetches the fragments of the page. *)
Lemma C9_reconnect_after_close :
  cleared (self (snd ((connect Mock.cooperative (Mock.cfg 2) ;;
                       close Mock.cooperative) fresh))) = true /\
  ready (self (snd ((connect Mock.cooperative (Mock.cfg 2) ;;
                     close Mock.cooperative ;;
                     connect Mock.cooperative (Mock.cfg 2)) fresh))) = true /\
  fst ((connect Mock.cooperative (Mock.cfg 2) ;;
        close Mock.cooperative ;;
        connect Mock.cooperative (Mock.cfg 2) ;;
        get_properties Mock.cooperative (Mock.cfg 2) Mock.url 0) fresh)
    = Returned ["<h2>Flat</h2>"; "<h2>House</h2>"].
Proof. repeat split; vm_compute; reflexivity. Qed.

Lemma keeps_or_clears_not_ready (bm' bm : BrowserManager) :
  keeps_or_clears bm' bm -> ready bm = false -> ready bm' = false.
Proof.
  destruct bm as [pw b p c], bm' as [pw' b' p' c'].
  unfold keeps_or_clears, ready. cbn.
  intros ([->| ->] & [->| ->] & [->| ->] & [->| ->]) H;
    cbn; rewrite ?andb_false_r; auto.
Qed.

(** C9, amended: the manager keeps no record of having been closed.  After a
    [close] whose release calls all succeed its handles are those of a newly
    constructed manager, and a [connect] whose launch calls succeed makes the
    same instance Ready (again), from whatever state.  Only [connect] does so:
    [close] and the two fetch operations never turn a manager that is not
    Ready into a Ready one. *)
Theorem C9_closed_manager (eng : Engine) (config : Config) (url : string)
        (retry_count : Z) (s : St) :
  (reliable_release eng -> self (snd (close eng s)) = init) /\
  (reliable_launch eng ->
   exists s', connect eng config s = (Returned tt, s') /\ ready (self s') = true) /\
  (ready (self s) = false ->
   ready (self (snd (close eng s))) = false /\
   ready (self (snd (get_properties eng config url retry_count s))) = false /\
   ready (self (snd (get_page_content eng config url s))) = false).
Proof.
  split; [|split].
  - intros Hr. now rewrite (close_reliable eng s Hr).
  - apply connect_reliable.
  - intros Hn. split.
    + exact (keeps_or_clears_not_ready _ _ (close_keeps_or_clears eng s) Hn).
    + destruct (fetch_frame eng config url retry_count s) as [-> ->]. now split.
Qed.

Lemma C9_closed_manager_witness :
  self (snd (close Mock.cooperative Mock.connected)) = init /\
  (exists s', connect Mock.cooperative (Mock.cfg 2)
                (snd (close Mock.cooperative Mock.connected)) = (Returned tt, s') /\
              ready (self s') = true) /\
  ready (self (snd (close Mock.cooperative fresh))) = false.
Proof.
  split; [|split].
  - apply (proj1 (C9_closed_manager Mock.cooperative (Mock.cfg 2) Mock.url 0
                    Mock.connected)).
    repeat split.
  - apply (proj1 (proj2 (C9_closed_manager Mock.cooperative (Mock.cfg 2) Mock.url 0
                           (snd (close Mock.cooperative Mock.connected))))).
    repeat split; eexists; reflexivity.
  - apply (proj2 (proj2 (C9_closed_manager Mock.cooperative (Mock.cfg 2) Mock.url 0
                           fresh))).
    reflexivity.
Defined.

(** * Further properties of the session manager *)

(** ** Launch: what [connect] hands to the engine and what it keeps *)




(** The outcome of [connect] when its [try] block raised. *)
Lemma connect_raises (eng : Engine) (config : Config) (s s1 : St) (e : exn) :
  connect_body eng config s = (Raised e, s1) ->
  exists s',
    connect eng config s = (Raised e, s') /\
    close eng {| self := self s1;
                 trace := trace s1 ++
                   [ELog ERROR ("Failed to launch browser: " ++ str_of_exn e)%string] |}
      = (Returned tt, s').
Proof.
  intros Hb.
  destruct (connect_outcome eng config s) as [(s' & _ & H)|(e' & s1' & s' & H & Hb' & Hc)].
  - congruence.
  - rewrite Hb in Hb'. injection Hb' as <- <-. eauto.
Qed.

(** X1: on a manager without engine handle, when the engine starts and every
    launch call made with the configured values goes through, [connect]
    returns with exactly the four handles the engine handed out; the browser
    was launched with the configured headless flag, the context opened with
    the configured user agent and viewport, and the default and navigation
    timeouts of the page set to the configured ones, in that order. *)
Theorem X1_connect_passes_configuration (eng : Engine) (config : Config) (s : St)
        (pw b c p : handle) :
  _playwright (self s) = None ->
  (forall h, pw_start eng h = Done (Some pw)) ->
  (forall h, chromium_launch eng h pw (headless (browser config)) = Done b) ->
  (forall h, new_context eng h b (user_agent (browser config))
               (viewport_width (browser config)) (viewport_height (browser config))
             = Done c) ->
  (forall h, new_page eng h c = Done p) ->
  (forall h, set_default_timeout eng h p (default_timeout (browser config)) = Done tt) ->
  (forall h, set_default_navigation_timeout eng h p (navigation_timeout (browser config))
             = Done tt) ->
  connect eng config s =
    (Returned tt,
     {| self := {| _playwright := Some pw; _browser := Some b;
                   _page := Some p; _context := Some c |};
        trace := trace s ++ start_events ++ launch_events config pw b c p |}).
Proof.
  intros Hn Hs Hl Hc Hp Ht Hv. open_state s.
  unfold connect, connect_body, _initialize_playwright. run_method.
  rewrite Hs. run_method. rewrite Hl. run_method. rewrite Hc. run_method.
  rewrite Hp. run_method. rewrite Ht. run_method. rewrite Hv. run_method.
  unfold start_events, launch_events. rewrite <- !app_assoc. reflexivity.
Qed.

Lemma X1_connect_passes_configuration_witness :
  connect Mock.cooperative (Mock.cfg 2) fresh =
    (Returned tt,
     {| self := self Mock.connected;
        trace := start_events ++ launch_events (Mock.cfg 2) 1%nat 2%nat 3%nat 4%nat |}).
Proof.
  apply (X1_connect_passes_configuration Mock.cooperative (Mock.cfg 2) fresh
           1%nat 2%nat 3%nat 4%nat); reflexivity.
Defined.



Lemma connect_failure_teardown (eng : Engine) (config : Config) (s s1 : St) (e : exn) :
  connect_body eng config s = (Raised e, s1) ->
  fst (connect eng config s) = Raised e /\
  (reliable_release eng ->
   connect eng config s =
     (Raised e,
      {| self := init;
         trace := trace s1 ++ failed_launch_events e (self s1) |})).
Proof.
  intros Hb. destruct (connect_raises eng config s s1 e Hb) as (s' & H & Hc).
  split.
  - now rewrite H.
  - intros Hr. rewrite H. f_equal.
    rewrite (close_reliable eng _ Hr) in Hc. injection Hc as <-.
    cbn [self trace]. unfold failed_launch_events. now rewrite <- !app_assoc.
Qed.

(** X3: when a launch step of [connect] raises, [connect] raises that same
    error, whatever happens in the teardown; and when every release call goes
    through, the teardown has released every handle the manager held at the
    point of failure, in the order page, context, browser, engine, and the
    manager is left without handles. *)
Theorem X3_connect_failure (eng : Engine) (config : Config) (s s1 : St) (e : exn) :
  connect_body eng config s = (Raised e, s1) ->
  fst (connect eng config s) = Raised e /\
  (reliable_release eng ->
   connect eng config s =
     (Raised e,
      {| self := init;
         trace := trace s1 ++ failed_launch_events e (self s1) |})).
Proof. apply connect_failure_teardown. Qed.

Lemma X3_connect_failure_witness :
  connect Mock.no_browser (Mock.cfg 2) fresh =
    (Raised (PlaywrightError "Executable doesn't exist"),
     {| self := init;
        trace := start_events ++
          [ELog INFO "Launching browser..."; ELaunch 1%nat true;
           ELog ERROR "Failed to launch browser: Executable doesn't exist";
           EStop 1%nat; ELog INFO "Browser resources cleaned up"] |}).
Proof.
  apply (proj2 (X3_connect_failure Mock.no_browser (Mock.cfg 2) fresh
                  {| self := {| _playwright := Some 1%nat; _browser := None;
                                _page := None; _context := None |};
                     trace := start_events ++
                       [ELog INFO "Launching browser..."; ELaunch 1%nat true] |}
                  (PlaywrightError "Executable doesn't exist") eq_refl)).
  repeat split.
Defined.

(** X4: on a manager that holds an engine handle, in particular on a Ready
    session, a [connect] whose browser launch raises tears down everything
    the manager held before the call: when every release call goes through,
    the old page, context and browser are closed, the engine is stopped, all
    handles are cleared and the launch error is raised. *)
Theorem X4_failed_relaunch_ends_session (eng : Engine) (config : Config) (s : St)
        (pw : handle) (e : exn) :
  _playwright (self s) = Some pw ->
  chromium_launch eng (trace s ++ [ELog INFO "Launching browser..."]) pw
    (headless (browser config)) = Fail e ->
  reliable_release eng ->
  connect eng config s =
    (Raised e,
     {| self := init;
        trace := trace s ++
          [ELog INFO "Launching browser..."; ELaunch pw (headless (browser config))]
          ++ failed_launch_events e (self s) |}).
Proof.
  intros Hpw Hl Hr.
  assert (Hb : connect_body eng config s =
               (Raised e,
                {| self := self s;
                   trace := trace s ++
                     [ELog INFO "Launching browser...";
                      ELaunch pw (headless (browser config))] |})).
  { open_state s. unfold connect_body, _initialize_playwright. run_method.
    rewrite Hl. now rewrite <- app_assoc. }
  rewrite (proj2 (connect_failure_teardown eng config s _ e Hb) Hr).
  cbn [self trace]. now rewrite <- app_assoc.
Qed.

Lemma X4_failed_relaunch_ends_session_witness :
  connect Mock.no_browser (Mock.cfg 2) Mock.connected =
    (Raised (PlaywrightError "Executable doesn't exist"),
     {| self := init;
        trace :=
          [ELog INFO "Launching browser..."; ELaunch 1%nat true;
           ELog ERROR "Failed to launch browser: Executable doesn't exist";
           EPageClose 4%nat; EContextClose 3%nat; EBrowserClose 2%nat; EStop 1%nat;
           ELog INFO "Browser resources cleaned up"] |}).
Proof.
  apply (X4_failed_relaunch_ends_session Mock.no_browser (Mock.cfg 2) Mock.connected
           1%nat (PlaywrightError "Executable doesn't exist") eq_refl eq_refl).
  repeat split.
Defined.

(** X5: on a manager without handles, when the engine cannot be started --
    the start call raises, or hands back nothing, which [connect] turns into
    the [RuntimeError] "Failed to initialize Playwright" -- [connect] raises,
    launches no browser and makes no release call: there is nothing to tear
    down, and the manager stays without handles. *)
Theorem X5_engine_start_failure (eng : Engine) (config : Config) (s : St) :
  cleared (self s) = true ->
  (pw_start eng (trace s ++ [ELog DEBUG "Initializing Playwright"]) = Done None ->
   connect eng config s =
     (Raised (RuntimeError "Failed to initialize Playwright"),
      {| self := self s;
         trace := trace s ++ start_events ++
           [ELog ERROR "Failed to launch browser: Failed to initialize Playwright";
            ELog INFO "Browser resources cleaned up"] |})) /\
  (forall e,
     pw_start eng (trace s ++ [ELog DEBUG "Initializing Playwright"]) = Fail e ->
     connect eng config s =
       (Raised e,
        {| self := self s;
           trace := trace s ++ start_events ++
             [ELog ERROR ("Failed to launch browser: " ++ str_of_exn e)%string;
              ELog INFO "Browser resources cleaned up"] |})).
Proof.
  intros Hc. destruct s as [[[pw|] [b|] [p|] [c|]] tr]; try discriminate Hc.
  cbn [self trace]. split; [intros H | intros e H];
    unfold connect, connect_body, _initialize_playwright, close, close_body;
    run_method; rewrite H; run_method;
    unfold start_events; rewrite <- ?app_assoc; reflexivity.
Qed.

Lemma X5_engine_start_failure_witness :
  connect Mock.no_engine (Mock.cfg 2) fresh =
    (Raised (RuntimeError "Failed to initialize Playwright"),
     {| self := init;
        trace := start_events ++
           [ELog ERROR "Failed to launch browser: Failed to initialize Playwright";
            ELog INFO "Browser resources cleaned up"] |}).
Proof.
  exact (proj1 (X5_engine_start_failure Mock.no_engine (Mock.cfg 2) fresh eq_refl)
           eq_refl).
Defined.

(** ** The retry recursion: bounds and the origin of the outcome *)

Section RetryBounds.

Variable eng : Engine.
Variable config : Config.
Variable url : string.

Lemma retry_bound (p : handle) :
  forall (n : nat) (r : Z) (s : St),
    Z.to_nat (max_retries (scraping config) - r) = n ->
    _page (self s) = Some p ->
    exists o evs,
      get_properties eng config url r s =
        (o, {| self := self s; trace := trace s ++ evs |}) /\
      count is_goto evs = S (count is_retry_delay evs) /\
      (count is_retry_delay evs <= n)%nat.
Proof.
  induction n as [|n IH]; intros r s Hn Hp;
    destruct (attempt_counts eng config url s p Hp) as (o & evs & E & Ho & Hg & Hd);
    destruct o as [v|e|]; try congruence.
  - exists (Returned v), evs.
    rewrite (get_properties_success eng config url r s _ p v Hp E). rewrite Hg, Hd.
    repeat split. lia.
  - exists (Raised e),
      (evs ++ [ELog ERROR ("Error fetching properties from " ++ url ++ ": "
                           ++ str_of_exn e)%string]).
    rewrite (get_properties_give_up eng config url r s _ p e Hp E) by lia.
    unfold after_give_up. cbn [self trace]. rewrite <- app_assoc, !count_app, Hg, Hd.
    repeat split. cbn. lia.
  - exists (Returned v), evs.
    rewrite (get_properties_success eng config url r s _ p v Hp E). rewrite Hg, Hd.
    repeat split. lia.
  - rewrite (get_properties_retry eng config url r s _ p e Hp E) by lia.
    destruct (IH (r + 1) (before_retry config url r e
                            {| self := self s; trace := trace s ++ evs |}))
      as (o' & evs' & E' & Hg' & Hd'); [lia | exact Hp |].
    rewrite E'. unfold before_retry. cbn [self trace].
    exists o', (evs ++ retry_events config url r e ++ evs').
    rewrite <- !app_assoc. split; [reflexivity|].
    rewrite !count_app, Hg, Hd, Hg'.
    change (count is_goto (retry_events config url r e)) with 0%nat.
    change (count is_retry_delay (retry_events config url r e)) with 1%nat.
    split; lia.
Qed.

Lemma last_attempt (p : handle) :
  forall (n : nat) (r : Z) (s : St),
    Z.to_nat (max_retries (scraping config) - r) = n ->
    _page (self s) = Some p ->
    exists s0 h,
      self s0 = self s /\ trace s0 = trace s ++ h /\
      ((exists v s1,
          attempt eng config url s0 = (Returned v, s1) /\
          get_properties eng config url r s = (Returned v, s1)) \/
       (exists e s1,
          attempt eng config url s0 = (Raised e, s1) /\
          get_properties eng config url r s = (Raised e, after_give_up url e s1))).
Proof.
  induction n as [|n IH]; intros r s Hn Hp;
    destruct (attempt_counts eng config url s p Hp) as (o & evs & E & Ho & _);
    destruct o as [v|e|]; try congruence.
  - exists s, []. rewrite app_nil_r. repeat split. left. exists v. eexists. split; [exact E|].
    exact (get_properties_success eng config url r s _ p v Hp E).
  - exists s, []. rewrite app_nil_r. repeat split. right. exists e. eexists. split; [exact E|].
    apply (get_properties_give_up eng config url r s _ p e Hp E). lia.
  - exists s, []. rewrite app_nil_r. repeat split. left. exists v. eexists. split; [exact E|].
    exact (get_properties_success eng config url r s _ p v Hp E).
  - rewrite (get_properties_retry eng config url r s _ p e Hp E) by lia.
    destruct (IH (r + 1) (before_retry config url r e
                            {| self := self s; trace := trace s ++ evs |}))
      as (s0 & h & Hs0 & Ht0 & H); [lia | exact Hp |].
    exists s0, (evs ++ retry_events config url r e ++ h).
    split; [exact Hs0|]. split; [|exact H].
    rewrite Ht0. unfold before_retry. cbn [self trace]. now rewrite <- !app_assoc.
Qed.

End RetryBounds.

(** X6: on a session with a page, whatever the engine does, a call of
    [get_properties] navigates exactly once more than it sleeps retry delays,
    and sleeps at most [max_retries - retry_count] of them, none when that
    number is not positive: at most [max_retries - retry_count + 1]
    attempts. *)
Theorem X6_attempts_are_bounded (eng : Engine) (config : Config) (url : string)
        (retry_count : Z) (s : St) (p : handle) :
  _page (self s) = Some p ->
  exists o evs,
    get_properties eng config url retry_count s =
      (o, {| self := self s; trace := trace s ++ evs |}) /\
    count is_goto evs = S (count is_retry_delay evs) /\
    Z.of_nat (count is_retry_delay evs)
      <= Z.max 0 (max_retries (scraping config) - retry_count).
Proof.
  intros Hp.
  destruct (retry_bound eng config url p _ retry_count s eq_refl Hp)
    as (o & evs & E & Hg & Hd).
  exists o, evs. repeat split; [exact E | exact Hg | lia].
Qed.

Lemma X6_attempts_are_bounded_witness :
  exists o evs,
    get_properties Mock.unreachable (Mock.cfg (-1)) Mock.url 0 Mock.connected =
      (o, {| self := self Mock.connected; trace := evs |}) /\
    count is_goto evs = 1%nat /\ count is_retry_delay evs = 0%nat.
Proof.
  destruct (X6_attempts_are_bounded Mock.unreachable (Mock.cfg (-1)) Mock.url 0
              Mock.connected 4%nat eq_refl) as (o & evs & E & Hg & Hd).
  exists o, evs. cbn in Hd. repeat split; [exact E | lia | lia].
Defined.

(** X7: on a session with a page, the outcome of [get_properties] is the
    outcome of its last attempt: a returned list is the list that attempt
    collected, so nothing collected by a failed attempt is in it, and a
    raised error is the error of that attempt, the errors of the earlier
    attempts being logged only.  The last attempt runs on the same handles,
    after the events of the earlier ones. *)
Theorem X7_outcome_of_last_attempt (eng : Engine) (config : Config) (url : string)
        (retry_count : Z) (s : St) (p : handle) :
  _page (self s) = Some p ->
  exists s0 h,
    self s0 = self s /\ trace s0 = trace s ++ h /\
    ((exists v s1,
        attempt eng config url s0 = (Returned v, s1) /\
        get_properties eng config url retry_count s = (Returned v, s1)) \/
     (exists e s1,
        attempt eng config url s0 = (Raised e, s1) /\
        get_properties eng config url retry_count s
          = (Raised e, after_give_up url e s1))).
Proof.
  intros Hp. exact (last_attempt eng config url p _ retry_count s eq_refl Hp).
Qed.

Lemma X7_outcome_of_last_attempt_witness :
  exists s0 h,
    self s0 = self Mock.connected /\ trace s0 = trace Mock.connected ++ h /\
    ((exists v s1,
        attempt (Mock.flaky 2) (Mock.cfg 2) Mock.url s0 = (Returned v, s1) /\
        get_properties (Mock.flaky 2) (Mock.cfg 2) Mock.url 0 Mock.connected
          = (Returned v, s1)) \/
     (exists e s1,
        attempt (Mock.flaky 2) (Mock.cfg 2) Mock.url s0 = (Raised e, s1) /\
        get_properties (Mock.flaky 2) (Mock.cfg 2) Mock.url 0 Mock.connected
          = (Raised e, after_give_up Mock.url e s1))).
Proof.
  exact (X7_outcome_of_last_attempt (Mock.flaky 2) (Mock.cfg 2) Mock.url 0
           Mock.connected 4%nat eq_refl).
Defined.

(** ** What the fetch operations and [close] never call *)

(** X8: whatever the engine does and whatever the state, [get_properties]
    and [get_page_content] only navigate, wait, query, read markup or
    content, sleep and log: they never start the engine, launch or release
    anything, and they sleep nothing but the settle delay of 5 seconds and
    the configured retry delay. *)
Theorem X8_fetch_calls (eng : Engine) (config : Config) (url : string)
        (retry_count : Z) (s : St) :
  (exists o evs,
     get_properties eng config url retry_count s =
       (o, {| self := self s; trace := trace s ++ evs |}) /\
     forallb (is_fetch_event config) evs = true) /\
  (exists o evs,
     get_page_content eng config url s =
       (o, {| self := self s; trace := trace s ++ evs |}) /\
     forallb (is_fetch_event config) evs = true).
Proof.
  split.
  - apply get_properties_only_emits.
  - apply get_page_content_only_emits.
Qed.

Lemma release_events_are_releases (bm : BrowserManager) :
  forallb is_teardown_event (release_events bm) = true.
Proof. destruct bm as [[pw|] [b|] [p|] [c|]]; reflexivity. Qed.

(** X9: whatever the engine does and whatever the state, [close] calls
    nothing but release operations (and logs), and every handle it leaves is
    [None] or the handle that was there before: it never launches,
    navigates or assigns a new handle. *)
Theorem X9_close_only_releases (eng : Engine) (s : St) :
  exists s' evs,
    close eng s = (Returned tt, s') /\
    trace s' = trace s ++ evs /\
    forallb is_teardown_event evs = true /\
    keeps_or_clears (self s') (self s).
Proof.
  pose proof (close_keeps_or_clears eng s) as Hk.
  pose proof (release_events_are_releases (self s)) as Hr.
  destruct (close_outcome eng s) as [H|(done & x & rest & e & bm' & Hd & _ & _ & H)];
    rewrite H in Hk; cbn [snd self] in Hk.
  - eexists. exists (release_events (self s) ++ [ELog INFO "Browser resources cleaned up"]).
    split; [exact H|]. cbn [self trace]. split; [reflexivity|]. split; [|exact Hk].
    now rewrite forallb_app, Hr.
  - eexists.
    exists (done ++ [x; ELog ERROR ("Error during cleanup: " ++ str_of_exn e)%string]).
    split; [exact H|]. cbn [self trace]. split; [reflexivity|]. split; [|exact Hk].
    rewrite Hd, forallb_app in Hr. apply andb_prop in Hr as [Hr1 Hr2].
    cbn [forallb] in Hr2. apply andb_prop in Hr2 as [Hx _].
    rewrite forallb_app, Hr1. cbn [forallb]. now rewrite Hx.
Qed.

(** ** The scoped session: [__aenter__] and [__aexit__] *)

(** X10: [__aenter__] hands back the manager itself, Ready.  Whatever runs
    between entry and exit without assigning a handle (the fetch operations
    are such), and however it ends, [__aexit__] then releases exactly the
    handles the manager held on entry, in the order page, context, browser,
    engine, and leaves it without handles, provided every release call goes
    through.  When [__aenter__] raises, the manager is already without
    handles. *)
Theorem X10_scoped_session (eng : Engine) (config : Config) (A : Type)
        (body : M A) (s : St) :
  reliable_release eng ->
  (forall s0, self (snd (body s0)) = self s0) ->
  (forall bm s1,
     __aenter__ eng config s = (Returned bm, s1) ->
     bm = self s1 /\ ready bm = true /\
     __aexit__ eng (snd (body s1)) =
       (Returned tt,
        {| self := init;
           trace := trace (snd (body s1)) ++ release_events bm
                      ++ [ELog INFO "Browser resources cleaned up"] |})) /\
  (forall e s1, __aenter__ eng config s = (Raised e, s1) -> self s1 = init).
Proof.
  intros Hr Hbody. unfold __aenter__, __aexit__, bind, get_self.
  destruct (connect_outcome eng config s) as [(s' & H & Hb)|(e' & s0 & s' & H & _ & _)];
    rewrite H; split; try discriminate.
  - intros bm s1 [= <- <-]. split; [reflexivity|].
    split; [exact (connect_body_success eng config s s' Hb)|].
    rewrite (close_reliable eng _ Hr). now rewrite Hbody.
  - intros e s1 [= <- <-]. exact (connect_failure_clears eng config s s' e' Hr H).
Qed.

Lemma X10_scoped_session_witness :
  (exists e, fst (get_properties Mock.unreachable (Mock.cfg 2) Mock.url 0
                    (snd (__aenter__ Mock.unreachable (Mock.cfg 2) fresh)))
             = Raised e) /\
  self (snd (__aexit__ Mock.unreachable
               (snd (get_properties Mock.unreachable (Mock.cfg 2) Mock.url 0
                       (snd (__aenter__ Mock.unreachable (Mock.cfg 2) fresh))))))
    = init.
Proof.
  assert (H : __aenter__ Mock.unreachable (Mock.cfg 2) fresh =
              (Returned (self Mock.connected),
               {| self := self Mock.connected;
                  trace := start_events
                             ++ launch_events (Mock.cfg 2) 1%nat 2%nat 3%nat 4%nat |}))
    by (vm_compute; reflexivity).
  split.
  - eexists. vm_compute. reflexivity.
  - destruct (proj1 (X10_scoped_session Mock.unreachable (Mock.cfg 2) (list string)
                       (get_properties Mock.unreachable (Mock.cfg 2) Mock.url 0) fresh
                       ltac:(repeat split)
                       (fun s0 => proj1 (fetch_frame Mock.unreachable (Mock.cfg 2)
                                           Mock.url 0 s0)))
                _ _ H) as (_ & _ & H3).
    rewrite H. cbn [snd]. now rewrite H3.
Defined.
